(** * analyze_alignment.py: session segmentation and alignment metrics

    A shallow embedding of the analysis core of
    [src/main/java/frc/robot/docs/analyze_alignment.py] (class
    [AlignmentAnalyzer] and the summary block of [main]), followed by the
    properties established about it.

    Numbers.  The script computes with IEEE doubles; here every float is an
    exact rational ([Q]), so comparisons and arithmetic are the ideal ones and
    there is neither rounding nor NaN.  Results that the code returns by
    picking an element of an input array are stated with Leibniz equality,
    results of arithmetic with [==].

    Exceptions.  Python code can raise; functions that can do so return a
    [result]. *)

From Stdlib Require Import String.
From Stdlib Require Import QArith Qabs Qminmax List Sorted Bool Lia Lqa ZArith PeanoNat.
Import ListNotations.
Open Scope Q_scope.

(* ================================================================== *)
(** ** Python and NumPy runtime *)
(* ================================================================== *)

Module Py.

Inductive exn : Type :=
| AttributeError
| IndexError
| TypeError
| ValueError.

Inductive result (A : Type) : Type :=
| Ok (a : A)
| Raise (e : exn).
Arguments Ok {A} a.
Arguments Raise {A} e.

Definition bind {A B} (m : result A) (k : A -> result B) : result B :=
  match m with
  | Ok a => k a
  | Raise e => Raise e
  end.

(** [l[i]] for a non-negative index. *)
Definition index {A} (l : list A) (i : nat) : result A :=
  match nth_error l i with
  | Some a => Ok a
  | None => Raise IndexError
  end.

(** A sequence value is either a Python [list] or a NumPy [ndarray]; the
    difference matters for method calls such as [.astype]. *)
Inductive arr (V : Type) : Type :=
| PyList (l : list V)
| NdArray (l : list V).
Arguments PyList {V} l.
Arguments NdArray {V} l.

Definition elems {V} (a : arr V) : list V :=
  match a with
  | PyList l => l
  | NdArray l => l
  end.

Definition len {V} (a : arr V) : nat := length (elems a).

(** [a.astype(float)]: defined on arrays only; a [list] has no such
    attribute. *)
Definition astype_float (a : arr bool) : result (arr Q) :=
  match a with
  | PyList _ => Raise AttributeError
  | NdArray l => Ok (NdArray (map (fun b : bool => if b then 1 else 0) l))
  end.

End Py.
Export Py.

Notation "x <- m ;; k" := (bind m (fun x => k))
(at level 61, m at next level, right associativity).

(** Float comparisons as booleans. *)
Definition Qltb (x y : Q) : bool := negb (Qle_bool y x).
Definition Qgtb (x y : Q) : bool := Qltb y x.
Definition Qgeb (x y : Q) : bool := Qle_bool y x.

Module Np.

(** [np.any], [np.all] on boolean arrays. *)
Definition any (l : list bool) : bool := existsb (fun b => b) l.
Definition all (l : list bool) : bool := forallb (fun b => b) l.

(** Boolean-mask indexing [a[mask]]. *)
Fixpoint select {A} (a : list A) (mask : list bool) : list A :=
  match a, mask with
  | x :: a', m :: mask' => if m then x :: select a' mask' else select a' mask'
  | _, _ => []
  end.

(** [np.where(flags)[0]]: the indices holding [True], ascending. *)
Fixpoint where_from (i : nat) (flags : list bool) : list nat :=
  match flags with
  | [] => []
  | b :: r => if b then i :: where_from (S i) r else where_from (S i) r
  end.
Definition where_ (flags : list bool) : list nat := where_from 0 flags.

(** [np.min], [np.max] of a non-empty array (only called on such). *)
Definition min (l : list Q) : Q :=
  match l with
  | [] => 0
  | x :: r => fold_left Qmin r x
  end.
Definition max (l : list Q) : Q :=
  match l with
  | [] => 0
  | x :: r => fold_left Qmax r x
  end.

Definition sum (l : list Q) : Q := fold_left Qplus l 0.
Definition mean (l : list Q) : Q := sum l / inject_Z (Z.of_nat (length l)).

(** [np.sign] into the three buckets -1, 0, 1. *)
Definition sign (x : Q) : Z := Z.sgn (Qnum x).

(** [np.diff]. *)
Fixpoint diff (l : list Z) : list Z :=
  match l with
  | a :: (b :: _) as r => (b - a)%Z :: diff r
  | _ => []
  end.

(** [np.zeros_like]. *)
Definition zeros_like (t : list Q) : list Q := map (fun _ => 0) t.

(** *** [np.interp]

    NumPy locates, for a query [x], the index [j] with
    [xp[j] <= x < xp[j+1]] ([binary_search_with_guess] in
    [compiled_base.c]): [len] when [x] lies right of the last knot, [-1]
    when it lies left of the first, and otherwise the result of
    [for (i = 1; i < len && key >= arr[i]; ++i); return i - 1;] (for long
    arrays a bisection that returns the same index on sorted input). *)
Fixpoint scan (key : Q) (rest : list Q) : nat :=
  match rest with
  | [] => O
  | a :: r => if Qgeb key a then S (scan key r) else O
  end.

Definition binary_search (key : Q) (arr : list Q) : Z :=
  if Qgtb key (last arr 0) then Z.of_nat (length arr)
  else if Qltb key (hd 0 arr) then (-1)%Z
  else Z.of_nat (scan key (tl arr)).

(** One output sample of [arr_interp]; [left] and [right] default to
    [fp[0]] and [fp[-1]]. *)
Definition interp_at (xp fp : list Q) (x : Q) : Q :=
  let lval := hd 0 fp in
  let rval := last fp 0 in
  if Nat.eqb (length xp) 1 then
    if Qltb x (hd 0 xp) then lval
    else if Qgtb x (hd 0 xp) then rval
    else hd 0 fp
  else
    let j := binary_search x xp in
    if Z.eqb j (-1) then lval
    else if Z.eqb j (Z.of_nat (length xp)) then rval
    else
      let jn := Z.to_nat j in
      if Z.eqb j (Z.of_nat (length xp) - 1) then nth jn fp 0
      else if Qeq_bool (nth jn xp 0) x then nth jn fp 0
      else
        let slope := (nth (S jn) fp 0 - nth jn fp 0)
                     / (nth (S jn) xp 0 - nth jn xp 0) in
        slope * (x - nth jn xp 0) + nth jn fp 0.

(** [np.interp(x, xp, fp)]; it rejects empty sample points and arrays of
    different lengths. *)
Definition interp (x xp fp : list Q) : result (list Q) :=
  if Nat.eqb (length xp) 0 then Raise ValueError
  else if negb (Nat.eqb (length fp) (length xp)) then Raise ValueError
  else Ok (map (interp_at xp fp) x).

(** [np.std]: the population standard deviation; the square root is a
    parameter since it leaves the rationals. *)
Definition var (l : list Q) : Q :=
  mean (map (fun x => Qabs (x - mean l) * Qabs (x - mean l)) l).
Definition std (sqrt : Q -> Q) (l : list Q) : Q := sqrt (var l).

End Np.

(* ================================================================== *)
(** ** Data model *)
(* ================================================================== *)

(** A channel as the log decoder ([LogFile.get] of the external
    [advantagescope] package) hands it over: its samples in log order, each a
    timestamp in seconds and a value; [c['timestamps']] and [c['values']] are
    the two projections. *)
Definition channel (V : Type) : Type := list (Q * V).
Definition timestamps_of {V} (c : channel V) : list Q := map fst c.
Definition values_of {V} (c : channel V) : list V := map snd c.

(** [self.data]: one entry per logical key of the field map plus
    [vision_has_target]; [None] when the key is missing from the map or the
    field from the log ([self.data.get(key) is None]). *)
Record LogData : Type := {
  status : option (channel string);
  forward_error : option (channel Q);
  lateral_error : option (channel Q);
  rotation_error : option (channel Q);
  forward_speed : option (channel Q);
  lateral_speed : option (channel Q);
  rotation_speed : option (channel Q);
  vision_has_target : option (channel bool);
  fully_aligned : option (channel bool)
}.

Record AlignmentMetrics : Type := {
  success : bool;
  alignment_time : option Q;
  settling_time : option Q;
  final_forward_error : option Q;
  final_lateral_error : option Q;
  final_rotation_error : option Q;
  max_forward_error : Q;
  max_lateral_error : Q;
  max_rotation_error : Q;
  forward_overshoot : Q;
  lateral_overshoot : Q;
  rotation_overshoot : Q;
  forward_oscillations : nat;
  lateral_oscillations : nat;
  rotation_oscillations : nat;
  avg_forward_speed : Q;
  avg_lateral_speed : Q;
  avg_rotation_speed : Q;
  target_lost_count : nat;
  target_id : option Z
}.

Record AlignmentSession : Type := {
  start_time : Q;
  end_time : Q;
  duration : Q;
  metrics : AlignmentMetrics;
  timestamps : list Q;
  s_forward_error : list Q;
  s_lateral_error : list Q;
  s_rotation_error : list Q;
  s_forward_speed : list Q;
  s_lateral_speed : list Q;
  s_rotation_speed : list Q;
  has_target : list bool;
  aligned_flags : list bool
}.

(* ================================================================== *)
(** ** Metrics engine *)
(* ================================================================== *)

(** [within_tol]: the elementwise conjunction of the three tolerance tests.
    The script only ever passes arrays of one length, those of a session. *)
Fixpoint within_tolerance (forward_err lateral_err rotation_err : list Q)
  (forward_tol lateral_tol rotation_tol : Q) : list bool :=
  match forward_err, lateral_err, rotation_err with
  | f :: fs, l :: ls, r :: rs =>
      (Qltb (Qabs f) forward_tol && Qltb (Qabs l) lateral_tol
       && Qltb (Qabs r) rotation_tol)
      :: within_tolerance fs ls rs forward_tol lateral_tol rotation_tol
  | _, _, _ => []
  end.

(** The body of the [for i in range(len(timestamps))] loop of
    [_calculate_settling_time] at index [i]: [Some t] when it returns [t]. *)
Definition settle_at (timestamps : list Q) (within_tol : list bool)
  (settle_duration : Q) (i : nat) : option Q :=
  if nth i within_tol false then
    let time_at_i := nth i timestamps 0 in
    let future_mask := map (fun t => Qgeb t (time_at_i + settle_duration)) timestamps in
    if Np.any future_mask then
      let future_settled := Np.select within_tol future_mask in
      if Np.all future_settled then Some (nth i timestamps 0) else None
    else None
  else None.

(** The loop itself over the remaining indices. *)
Fixpoint settle_loop (timestamps : list Q) (within_tol : list bool)
  (settle_duration : Q) (indices : list nat) : option Q :=
  match indices with
  | [] => None
  | i :: rest =>
      match settle_at timestamps within_tol settle_duration i with
      | Some t => Some t
      | None => settle_loop timestamps within_tol settle_duration rest
      end
  end.

Definition _calculate_settling_time (timestamps forward_err lateral_err rotation_err : list Q)
  (forward_tol lateral_tol rotation_tol settle_duration : Q) : option Q :=
  let within_tol :=
    within_tolerance forward_err lateral_err rotation_err
                     forward_tol lateral_tol rotation_tol in
  if negb (Np.any within_tol) then None
  else settle_loop timestamps within_tol settle_duration (seq 0 (length timestamps)).

Definition _calculate_overshoot (error : list Q) : Q :=
  if Nat.ltb (length error) 2 then 0
  else
    let initial_error := nth 0 error 0 in
    if Qltb (Qabs initial_error) 0.001 then 0
    else if Qgtb initial_error 0 then
      let overshoot := Np.min error in
      if Qltb overshoot 0 then Qabs (overshoot / initial_error) * 100 else 0
    else
      let overshoot := Np.max error in
      if Qgtb overshoot 0 then Qabs (overshoot / initial_error) * 100 else 0.

Definition _count_zero_crossings (signal : list Q) : nat :=
  if Nat.ltb (length signal) 2 then O
  else length (filter (fun d => negb (Z.eqb d 0)) (Np.diff (map Np.sign signal))).

(** [np.sum((has_target[:-1] == True) & (has_target[1:] == False))]. *)
Fixpoint lost_pairs (has_target : list bool) : nat :=
  match has_target with
  | a :: (b :: _) as r => ((if a && negb b then 1 else 0) + lost_pairs r)%nat
  | _ => O
  end.

Definition _count_target_losses (has_target : list bool) : nat :=
  if Nat.ltb (length has_target) 2 then O else lost_pairs has_target.

Definition final_error (e : list Q) : option Q :=
  if Nat.ltb 0 (length e) then Some (last e 0) else None.

Definition max_abs (e : list Q) : Q :=
  if Nat.ltb 0 (length e) then Np.max (map Qabs e) else 0.

Definition mean_abs (e : list Q) : Q :=
  if Nat.ltb 0 (length e) then Np.mean (map Qabs e) else 0.

Definition _calculate_metrics (timestamps forward_error lateral_error rotation_error
    forward_speed lateral_speed rotation_speed : list Q)
    (has_target aligned_flags : list bool) : result AlignmentMetrics :=
  let success := Np.any aligned_flags in
  alignment_time <-
    (if success then
       match Np.where_ aligned_flags with
       | i :: _ => t <- index timestamps i ;; Ok (Some t)
       | [] => Ok None
       end
     else Ok None) ;;
  let settling_time :=
    _calculate_settling_time timestamps forward_error lateral_error rotation_error
                             0.10 0.05 2.0 0.5 in
  Ok {| success := success;
        alignment_time := alignment_time;
        settling_time := settling_time;
        final_forward_error := final_error forward_error;
        final_lateral_error := final_error lateral_error;
        final_rotation_error := final_error rotation_error;
        max_forward_error := max_abs forward_error;
        max_lateral_error := max_abs lateral_error;
        max_rotation_error := max_abs rotation_error;
        forward_overshoot := _calculate_overshoot forward_error;
        lateral_overshoot := _calculate_overshoot lateral_error;
        rotation_overshoot := _calculate_overshoot rotation_error;
        forward_oscillations := _count_zero_crossings forward_error;
        lateral_oscillations := _count_zero_crossings lateral_error;
        rotation_oscillations := _count_zero_crossings rotation_error;
        avg_forward_speed := mean_abs forward_speed;
        avg_lateral_speed := mean_abs lateral_speed;
        avg_rotation_speed := mean_abs rotation_speed;
        target_lost_count := _count_target_losses has_target;
        target_id := None |}.

(* ================================================================== *)
(** ** Session extraction *)
(* ================================================================== *)

(** The helper [get_values_in_range] closes over [start_time] and
    [end_time]; a missing entry yields two empty Python lists, a present one
    two masked arrays. *)
Definition get_values_in_range {V} (start_time end_time : Q)
  (entry : option (channel V)) : arr Q * arr V :=
  match entry with
  | None => (PyList [], PyList [])
  | Some c =>
      let kept := filter (fun s => Qgeb (fst s) start_time && Qle_bool (fst s) end_time) c in
      (NdArray (timestamps_of kept), NdArray (values_of kept))
  end.

(** Lines 281-286: the reference time base, [None] when the session is
    given up for lack of data. *)
Definition reference_timestamps (t_forward_err t_rotation_err : arr Q) : option (list Q) :=
  if Nat.ltb 0 (len t_forward_err) then Some (elems t_forward_err)
  else if Nat.ltb 0 (len t_rotation_err) then Some (elems t_rotation_err)
  else None.

Definition interp_to_common (t_src vals : arr Q) (t_dest : list Q) : result (list Q) :=
  if Nat.eqb (len t_src) 0 || Nat.eqb (len vals) 0 then Ok (Np.zeros_like t_dest)
  else Np.interp t_dest (elems t_src) (elems vals).

Definition threshold (l : list Q) : list bool := map (fun v => Qgtb v 0.5) l.

Definition _extract_session (d : LogData) (start_idx end_idx : nat)
  : result (option AlignmentSession) :=
  status_data <- match status d with Some c => Ok c | None => Raise TypeError end ;;
  start_time <- index (timestamps_of status_data) start_idx ;;
  end_time <- index (timestamps_of status_data) end_idx ;;
  let duration := end_time - start_time in
  if Qltb duration 0.1 then Ok None
  else
    let '(t_forward_err, forward_error) := get_values_in_range start_time end_time (forward_error d) in
    let '(t_lateral_err, lateral_error) := get_values_in_range start_time end_time (lateral_error d) in
    let '(t_rotation_err, rotation_error) := get_values_in_range start_time end_time (rotation_error d) in
    let '(t_forward_spd, forward_speed) := get_values_in_range start_time end_time (forward_speed d) in
    let '(t_lateral_spd, lateral_speed) := get_values_in_range start_time end_time (lateral_speed d) in
    let '(t_rotation_spd, rotation_speed) := get_values_in_range start_time end_time (rotation_speed d) in
    let '(t_has_target, has_target) := get_values_in_range start_time end_time (vision_has_target d) in
    let '(t_aligned, aligned_flags) := get_values_in_range start_time end_time (fully_aligned d) in
    match reference_timestamps t_forward_err t_rotation_err with
    | None => Ok None
    | Some timestamps =>
        forward_error <- interp_to_common t_forward_err forward_error timestamps ;;
        lateral_error <- interp_to_common t_lateral_err lateral_error timestamps ;;
        rotation_error <- interp_to_common t_rotation_err rotation_error timestamps ;;
        forward_speed <- interp_to_common t_forward_spd forward_speed timestamps ;;
        lateral_speed <- interp_to_common t_lateral_spd lateral_speed timestamps ;;
        rotation_speed <- interp_to_common t_rotation_spd rotation_speed timestamps ;;
        has_target_f <- astype_float has_target ;;
        has_target_i <- interp_to_common t_has_target has_target_f timestamps ;;
        let has_target := threshold has_target_i in
        aligned_f <- astype_float aligned_flags ;;
        aligned_i <- interp_to_common t_aligned aligned_f timestamps ;;
        let aligned_flags := threshold aligned_i in
        let relative := map (fun t => t - start_time) timestamps in
        metrics <- _calculate_metrics relative forward_error lateral_error rotation_error
                     forward_speed lateral_speed rotation_speed has_target aligned_flags ;;
        Ok (Some {| start_time := start_time;
                    end_time := end_time;
                    duration := duration;
                    metrics := metrics;
                    timestamps := relative;
                    s_forward_error := forward_error;
                    s_lateral_error := lateral_error;
                    s_rotation_error := rotation_error;
                    s_forward_speed := forward_speed;
                    s_lateral_speed := lateral_speed;
                    s_rotation_speed := rotation_speed;
                    has_target := has_target;
                    aligned_flags := aligned_flags |})
    end.

(* ================================================================== *)
(** ** Session segmenter *)
(* ================================================================== *)

Definition is_start (status : string) : bool :=
  String.eqb status "STARTED" || String.eqb status "ALIGNING".

Definition is_end (status : string) : bool :=
  String.eqb status "COMPLETED" || String.eqb status "INTERRUPTED".

(** The loop variables of [find_alignment_sessions]. *)
Record ScanState : Type := {
  in_session : bool;
  session_start_idx : option nat;
  sessions : list AlignmentSession
}.

(** [if session: sessions.append(session)]. *)
Definition append_session (sessions : list AlignmentSession)
  (session : option AlignmentSession) : list AlignmentSession :=
  match session with
  | Some s => sessions ++ [s]
  | None => sessions
  end.

Definition scan_step (d : LogData) (values : list string) (st : ScanState) (i : nat)
  : result ScanState :=
  status <- index values i ;;
  if negb (in_session st) && is_start status then
    Ok {| in_session := true; session_start_idx := Some i; sessions := sessions st |}
  else if in_session st && is_end status then
    start_idx <- match session_start_idx st with
                 | Some s => Ok s
                 | None => Raise TypeError
                 end ;;
    session <- _extract_session d start_idx i ;;
    Ok {| in_session := false; session_start_idx := None;
          sessions := append_session (sessions st) session |}
  else Ok st.

Fixpoint scan_loop (d : LogData) (values : list string) (st : ScanState)
  (indices : list nat) : result ScanState :=
  match indices with
  | [] => Ok st
  | i :: rest => st' <- scan_step d values st i ;; scan_loop d values st' rest
  end.

Definition find_alignment_sessions (d : LogData) : result (list AlignmentSession) :=
  match status d with
  | None => Ok []
  | Some status_data =>
      let n := length (timestamps_of status_data) in
      st <- scan_loop d (values_of status_data)
              {| in_session := false; session_start_idx := None; sessions := [] |}
              (seq 0 n) ;;
      match in_session st, session_start_idx st with
      | true, Some start_idx =>
          session <- _extract_session d start_idx (n - 1) ;;
          Ok (append_session (sessions st) session)
      | _, _ => Ok (sessions st)
      end
  end.

(* ================================================================== *)
(** ** Summary statistics of [main] *)
(* ================================================================== *)

(** Truth value of an [Optional[float]] in a condition: [None] and [0.0] are
    false. *)
Definition truthy (o : option Q) : bool :=
  match o with
  | Some x => negb (Qeq_bool x 0)
  | None => false
  end.

(** [[f(s) for s in sessions if f(s)]]. *)
Fixpoint collect_truthy (f : AlignmentSession -> option Q)
  (sessions : list AlignmentSession) : list Q :=
  match sessions with
  | [] => []
  | s :: rest =>
      match f s with
      | Some x => if truthy (Some x) then x :: collect_truthy f rest
                  else collect_truthy f rest
      | None => collect_truthy f rest
      end
  end.

Definition alignment_times (sessions : list AlignmentSession) : list Q :=
  collect_truthy (fun s => alignment_time (metrics s)) sessions.

Definition settling_times (sessions : list AlignmentSession) : list Q :=
  collect_truthy (fun s => settling_time (metrics s)) sessions.

Record Summary : Type := {
  success_rate : Q;
  alignment_time_stats : option (Q * Q);
  settling_time_stats : option (Q * Q)
}.

Section MainSummary.

Variable sqrt : Q -> Q.

(** [if xs: print(mean, std)]: nothing is printed for an empty list. *)
Definition mean_std (xs : list Q) : option (Q * Q) :=
  match xs with
  | [] => None
  | _ => Some (Np.mean xs, Np.std sqrt xs)
  end.

(** The block under [if len(sessions) > 1]. *)
Definition summary (sessions : list AlignmentSession) : option Summary :=
  if Nat.ltb 1 (length sessions) then
    let successes := length (filter (fun s => success (metrics s)) sessions) in
    Some {| success_rate :=
              inject_Z (Z.of_nat successes) / inject_Z (Z.of_nat (length sessions)) * 100;
            alignment_time_stats := mean_std (alignment_times sessions);
            settling_time_stats := mean_std (settling_times sessions) |}
  else None.

End MainSummary.

(* ================================================================== *)
(** ** The specification's readings, for comparison with the code *)
(* ================================================================== *)

(** The segmenter as the two-state machine of the design: [IDLE] and
    [IN_SESSION], the latter carrying the index that opened the session. *)
Inductive SegState : Type :=
| IDLE
| IN_SESSION (session_start_idx : nat).

(** One transition on the sample at index [i]; the second component is the
    index range of a session closed by it. *)
Definition seg_step (st : SegState) (i : nat) (status : string)
  : SegState * option (nat * nat) :=
  match st with
  | IDLE => if is_start status then (IN_SESSION i, None) else (IDLE, None)
  | IN_SESSION s => if is_end status then (IDLE, Some (s, i)) else (IN_SESSION s, None)
  end.

(** The ranges produced from state [st] on the samples from index [i] on; a
    session still open when the samples run out is closed at the final
    sample index. *)
Fixpoint seg_run (st : SegState) (i : nat) (statuses : list string) : list (nat * nat) :=
  match statuses with
  | [] =>
      match st with
      | IN_SESSION s => [(s, (i - 1)%nat)]
      | IDLE => []
      end
  | status :: rest =>
      match seg_step st i status with
      | (st', Some r) => r :: seg_run st' (S i) rest
      | (st', None) => seg_run st' (S i) rest
      end
  end.

Definition segments (statuses : list string) : list (nat * nat) :=
  seg_run IDLE 0 statuses.

(** The loop variables of the code that stand for a machine state, with the
    sessions [acc] found so far. *)
Definition scan_state_of (seg : SegState) (acc : list AlignmentSession) : ScanState :=
  match seg with
  | IDLE => {| in_session := false; session_start_idx := None; sessions := acc |}
  | IN_SESSION s => {| in_session := true; session_start_idx := Some s; sessions := acc |}
  end.

(** Extraction attempted on each range in turn, after the sessions [acc]
    already found. *)
Fixpoint extract_all (d : LogData) (ranges : list (nat * nat))
  (acc : list AlignmentSession) : result (list AlignmentSession) :=
  match ranges with
  | [] => Ok acc
  | (s, e) :: rest =>
      session <- _extract_session d s e ;;
      extract_all d rest (append_session acc session)
  end.

(** Consecutive index ranges, each non-empty, starting at or after [lo], each
    starting strictly after the end of the one before. *)
Fixpoint ranges_ordered (lo : nat) (ranges : list (nat * nat)) : Prop :=
  match ranges with
  | [] => True
  | (s, e) :: rest => (lo <= s)%nat /\ (s <= e)%nat /\ ranges_ordered (S e) rest
  end.

(** Settling as the specification words it: the sample at index [i] is
    within tolerance and so is every sample from it onward. *)
Definition settled_from (within_tol : list bool) (i : nat) : Prop :=
  forall k, (i <= k < length within_tol)%nat -> nth k within_tol false = true.

(** What the code accepts at index [i]: the sample is within tolerance, some
    sample lies at least [settle_duration] later, and every sample that late
    is within tolerance. *)
Definition late_settled (timestamps : list Q) (within_tol : list bool)
  (settle_duration : Q) (i : nat) : Prop :=
  nth i within_tol false = true
  /\ (exists k, (k < length timestamps)%nat
                /\ nth i timestamps 0 + settle_duration <= nth k timestamps 0)
  /\ (forall k, (k < length timestamps)%nat ->
                nth i timestamps 0 + settle_duration <= nth k timestamps 0 ->
                nth k within_tol false = true).

(** The reference time base as the specification words it: the channel with
    the most samples in range. *)
Definition most_samples_reference (t_forward_err t_rotation_err : arr Q)
  : option (list Q) :=
  if Nat.eqb (len t_forward_err) 0 && Nat.eqb (len t_rotation_err) 0 then None
  else if Nat.leb (len t_rotation_err) (len t_forward_err)
       then Some (elems t_forward_err)
       else Some (elems t_rotation_err).

(** The values the specification aggregates: those that are not [None]. *)
Fixpoint collect_defined (f : AlignmentSession -> option Q)
  (sessions : list AlignmentSession) : list Q :=
  match sessions with
  | [] => []
  | s :: rest =>
      match f s with
      | Some x => x :: collect_defined f rest
      | None => collect_defined f rest
      end
  end.

(* ================================================================== *)
(** ** Example logs *)
(* ================================================================== *)

Definition example_status : channel string :=
  [ (0, "IDLE"%string); (0.2, "STARTED"%string); (0.4, "ALIGNING"%string);
    (0.6, "COMPLETED"%string); (0.8, "IDLE"%string); (1.0, "STARTED"%string);
    (1.2, "INTERRUPTED"%string) ].

Definition example_forward_error : channel Q :=
  [ (0.25, 1.0); (0.35, 0.5); (0.45, -0.3); (0.55, 0.1); (1.0, 0.05); (1.1, 0.01) ].

Definition example_flag : channel bool :=
  [ (0.3, false); (0.5, true); (1.0, true) ].

(** A log of the [main] model with two alignment attempts. *)
Definition example_log : LogData :=
  {| status := Some example_status;
     forward_error := Some example_forward_error;
     lateral_error := None;
     rotation_error := None;
     forward_speed := None;
     lateral_speed := None;
     rotation_speed := None;
     vision_has_target := Some example_flag;
     fully_aligned := Some example_flag |}.

(** The same log when [Vision/HasTarget] was never recorded. *)
Definition example_log_without_target : LogData :=
  {| status := Some example_status;
     forward_error := Some example_forward_error;
     lateral_error := None;
     rotation_error := None;
     forward_speed := None;
     lateral_speed := None;
     rotation_speed := None;
     vision_has_target := None;
     fully_aligned := Some example_flag |}.

(** One attempt in which the rotation error is logged three times and the
    forward error once. *)
Definition sparse_forward_log : LogData :=
  {| status := Some [ (0, "STARTED"%string); (1, "COMPLETED"%string) ];
     forward_error := Some [ (0.5, 0.2) ];
     lateral_error := None;
     rotation_error := Some [ (0.1, 5); (0.5, 3); (0.9, 1) ];
     forward_speed := None;
     lateral_speed := None;
     rotation_speed := None;
     vision_has_target := Some [];
     fully_aligned := Some [] |}.

(** A single start/end pair [t0], [t1] over a forward-error channel. *)
Definition pair_log (t0 t1 : Q) (fe : channel Q) : LogData :=
  {| status := Some [ (t0, "STARTED"%string); (t1, "COMPLETED"%string) ];
     forward_error := Some fe;
     lateral_error := None;
     rotation_error := None;
     forward_speed := None;
     lateral_speed := None;
     rotation_speed := None;
     vision_has_target := Some [];
     fully_aligned := Some [] |}.

(** A log in which no alignment was ever started and only the status was
    recorded. *)
Definition idle_log : LogData :=
  {| status := Some [ (0, "IDLE"%string); (1, "COMPLETED"%string) ];
     forward_error := None;
     lateral_error := None;
     rotation_error := None;
     forward_speed := None;
     lateral_speed := None;
     rotation_speed := None;
     vision_has_target := None;
     fully_aligned := None |}.

(** The same start/end pair in a log without the [Vision/HasTarget]
    field. *)
Definition pair_log_without_target (t0 t1 : Q) (fe : channel Q) : LogData :=
  {| status := Some [ (t0, "STARTED"%string); (t1, "COMPLETED"%string) ];
     forward_error := Some fe;
     lateral_error := None;
     rotation_error := None;
     forward_speed := None;
     lateral_speed := None;
     rotation_speed := None;
     vision_has_target := None;
     fully_aligned := Some [] |}.

(* ================================================================== *)
(** ** Field maps and loading *)
(* ================================================================== *)

(** [_get_field_map], reading [self.model] (the constructor stores the model
    name upper-cased); the dictionary is the list of its items. *)
Definition _get_field_map (model : string) : list (string * string) :=
  if String.eqb model "A" then
    let prefix := "VisionTest/ModelA"%string in
    [ ("status", String.append prefix "/Status");
      ("rotation_error", String.append prefix "/TX");
      ("rotation_speed", String.append prefix "/RotationSpeed");
      ("rotation_aligned", String.append prefix "/RotationAtTarget");
      ("fully_aligned", String.append prefix "/FullyAligned");
      ("tag_id", String.append prefix "/TagID") ]%string
  else if String.eqb model "B" then
    let prefix := "VisionTest/ModelB"%string in
    [ ("status", String.append prefix "/Status");
      ("rotation_error", String.append prefix "/TX");
      ("distance_error", String.append prefix "/DistanceError");
      ("rotation_speed", String.append prefix "/RotationSpeed");
      ("forward_speed", String.append prefix "/ForwardSpeed");
      ("rotation_aligned", String.append prefix "/RotationAtTarget");
      ("distance_aligned", String.append prefix "/DistanceAtTarget");
      ("fully_aligned", String.append prefix "/FullyAligned");
      ("tag_id", String.append prefix "/TagID") ]%string
  else if String.eqb model "C" then
    let prefix := "VisionTest/ModelC"%string in
    [ ("status", String.append prefix "/Status");
      ("rotation_error", String.append prefix "/TX");
      ("distance_error", String.append prefix "/DistanceError");
      ("lateral_error", String.append prefix "/TY");
      ("rotation_speed", String.append prefix "/RotationSpeed");
      ("forward_speed", String.append prefix "/ForwardSpeed");
      ("lateral_speed", String.append prefix "/LateralSpeed");
      ("rotation_aligned", String.append prefix "/RotationAtTarget");
      ("distance_aligned", String.append prefix "/DistanceAtTarget");
      ("lateral_aligned", String.append prefix "/LateralAtTarget");
      ("fully_aligned", String.append prefix "/FullyAligned");
      ("tag_id", String.append prefix "/TagID") ]%string
  else
    let prefix := "AprilTagAlign"%string in
    [ ("status", String.append prefix "/Status");
      ("forward_error", String.append prefix "/ForwardError");
      ("lateral_error", String.append prefix "/LateralError");
      ("rotation_error", String.append prefix "/RotationError");
      ("forward_speed", String.append prefix "/ForwardSpeed");
      ("lateral_speed", String.append prefix "/LateralSpeed");
      ("rotation_speed", String.append prefix "/RotationSpeed");
      ("forward_aligned", String.append prefix "/ForwardAligned");
      ("lateral_aligned", String.append prefix "/LateralAligned");
      ("rotation_aligned", String.append prefix "/RotationAligned");
      ("fully_aligned", String.append prefix "/FullyAligned");
      ("tag_id", String.append prefix "/TagID") ]%string.

(** The decoded log file: [LogFile.get] by field name, seen at the value
    type at which the analysis reads the field; [None] for a field that is
    not in the log or whose lookup fails ([load_log] turns an exception into
    [None]). *)
Record LogFile : Type := {
  get_text : string -> option (channel string);
  get_number : string -> option (channel Q);
  get_flag : string -> option (channel bool)
}.

(** [d.get(key)] on the items of a dictionary. *)
Definition dict_get (items : list (string * string)) (key : string) : option string :=
  match find (fun kv => String.eqb (fst kv) key) items with
  | Some kv => Some (snd kv)
  | None => None
  end.

(** What [self.data.get(key)] holds after [load_log] for a key of the field
    map: the field the map names, nothing for a key the map does not have. *)
Definition loaded {V} (get : string -> option (channel V))
  (field_map : list (string * string)) (key : string) : option (channel V) :=
  match dict_get field_map key with
  | Some field_name => get field_name
  | None => None
  end.

(** [load_log]: the entries of [self.data] that the analysis reads. *)
Definition load_log (log : LogFile) (model : string) : LogData :=
  let field_map := _get_field_map model in
  {| status := loaded (get_text log) field_map "status";
     forward_error := loaded (get_number log) field_map "forward_error";
     lateral_error := loaded (get_number log) field_map "lateral_error";
     rotation_error := loaded (get_number log) field_map "rotation_error";
     forward_speed := loaded (get_number log) field_map "forward_speed";
     lateral_speed := loaded (get_number log) field_map "lateral_speed";
     rotation_speed := loaded (get_number log) field_map "rotation_speed";
     vision_has_target := get_flag log "Vision/HasTarget";
     fully_aligned := loaded (get_flag log) field_map "fully_aligned" |}.

(** A log file that holds the channels of the example log under the field
    names of model B. *)
Definition example_file_b : LogFile :=
  {| get_text := fun name =>
       if String.eqb name "VisionTest/ModelB/Status" then Some example_status
       else None;
     get_number := fun name =>
       if String.eqb name "VisionTest/ModelB/TX" then Some example_forward_error
       else if String.eqb name "VisionTest/ModelB/DistanceError"
            then Some example_forward_error
       else None;
     get_flag := fun name =>
       if String.eqb name "Vision/HasTarget" then Some example_flag
       else if String.eqb name "VisionTest/ModelB/FullyAligned"
            then Some example_flag
       else None |}.

(* ================================================================== *)
(** ** Comparison and list lemmas *)
(* ================================================================== *)

Lemma Qltb_lt (x y : Q) : Qltb x y = true <-> x < y.
Proof.
  unfold Qltb. rewrite negb_true_iff. split; intro H.
  - apply Qnot_le_lt. intro L. apply Qle_bool_iff in L. congruence.
  - destruct (Qle_bool y x) eqn:E; trivial.
    apply Qle_bool_iff in E. exfalso. exact (Qlt_not_le _ _ H E).
Qed.

Lemma Qltb_ge (x y : Q) : Qltb x y = false <-> y <= x.
Proof.
  unfold Qltb. rewrite negb_false_iff. apply Qle_bool_iff.
Qed.

Lemma Qgtb_gt (x y : Q) : Qgtb x y = true <-> y < x.
Proof. apply Qltb_lt. Qed.

Lemma Qgtb_le (x y : Q) : Qgtb x y = false <-> x <= y.
Proof. apply Qltb_ge. Qed.

Lemma Qgeb_ge (x y : Q) : Qgeb x y = true <-> y <= x.
Proof. apply Qle_bool_iff. Qed.

Lemma Qgeb_lt (x y : Q) : Qgeb x y = false <-> x < y.
Proof.
  unfold Qgeb. split; intro H.
  - apply Qnot_le_lt. intro L. apply Qle_bool_iff in L. congruence.
  - destruct (Qle_bool y x) eqn:E; trivial.
    apply Qle_bool_iff in E. exfalso. exact (Qlt_not_le _ _ H E).
Qed.

Ltac qcases :=
  repeat match goal with
  | H : Qltb _ _ = true |- _ => apply Qltb_lt in H
  | H : Qltb _ _ = false |- _ => apply Qltb_ge in H
  | H : Qgtb _ _ = true |- _ => apply Qgtb_gt in H
  | H : Qgtb _ _ = false |- _ => apply Qgtb_le in H
  | H : Qgeb _ _ = true |- _ => apply Qgeb_ge in H
  | H : Qgeb _ _ = false |- _ => apply Qgeb_lt in H
  | H : Qle_bool _ _ = true |- _ => apply Qle_bool_iff in H
  end.

Lemma index_Ok {A} (l : list A) (i : nat) (a : A) :
  index l i = Ok a <-> nth_error l i = Some a.
Proof.
  unfold index. destruct (nth_error l i); split; intro H; congruence.
Qed.

(* ================================================================== *)
(** ** Overshoot *)
(* ================================================================== *)

(** [np.min] and [np.max] as modelled are the least and the greatest
    element of a non-empty array. *)
Lemma fold_min_spec (l : list Q) :
  forall a,
    fold_left Qmin l a <= a
    /\ (forall x, In x l -> fold_left Qmin l a <= x)
    /\ (fold_left Qmin l a == a \/ exists x, In x l /\ fold_left Qmin l a == x).
Proof.
  induction l as [|b l IH]; intros a; simpl.
  - repeat split; [lra | contradiction | left; reflexivity].
  - destruct (IH (Qmin a b)) as [H1 [H2 H3]].
    pose proof (Q.le_min_l a b). pose proof (Q.le_min_r a b).
    repeat split.
    + lra.
    + intros x [<- | Hx]; [lra | now apply H2].
    + destruct H3 as [H3 | [x [Hx H3]]].
      * destruct (Q.min_dec a b) as [E | E].
        -- left. exact (Qeq_trans _ _ _ H3 E).
        -- right. exists b. split; [now left | exact (Qeq_trans _ _ _ H3 E)].
      * right. exists x. split; [now right | exact H3].
Qed.

Lemma fold_max_spec (l : list Q) :
  forall a,
    a <= fold_left Qmax l a
    /\ (forall x, In x l -> x <= fold_left Qmax l a)
    /\ (fold_left Qmax l a == a \/ exists x, In x l /\ fold_left Qmax l a == x).
Proof.
  induction l as [|b l IH]; intros a; simpl.
  - repeat split; [lra | contradiction | left; reflexivity].
  - destruct (IH (Qmax a b)) as [H1 [H2 H3]].
    pose proof (Q.le_max_l a b). pose proof (Q.le_max_r a b).
    repeat split.
    + lra.
    + intros x [<- | Hx]; [lra | now apply H2].
    + destruct H3 as [H3 | [x [Hx H3]]].
      * destruct (Q.max_dec a b) as [E | E].
        -- left. exact (Qeq_trans _ _ _ H3 E).
        -- right. exists b. split; [now left | exact (Qeq_trans _ _ _ H3 E)].
      * right. exists x. split; [now right | exact H3].
Qed.

Lemma np_min_spec (e : list Q) :
  e <> [] ->
  (forall x, In x e -> Np.min e <= x) /\ exists x, In x e /\ Np.min e == x.
Proof.
  destruct e as [|a l]; [congruence|]. intros _. unfold Np.min.
  destruct (fold_min_spec l a) as [H1 [H2 H3]]. split.
  - intros x [<- | Hx]; [exact H1 | now apply H2].
  - destruct H3 as [H3 | [x [Hx H3]]].
    + exists a. split; [now left | exact H3].
    + exists x. split; [now right | exact H3].
Qed.

Lemma np_max_spec (e : list Q) :
  e <> [] ->
  (forall x, In x e -> x <= Np.max e) /\ exists x, In x e /\ Np.max e == x.
Proof.
  destruct e as [|a l]; [congruence|]. intros _. unfold Np.max.
  destruct (fold_max_spec l a) as [H1 [H2 H3]]. split.
  - intros x [<- | Hx]; [exact H1 | now apply H2].
  - destruct H3 as [H3 | [x [Hx H3]]].
    + exists a. split; [now left | exact H3].
    + exists x. split; [now right | exact H3].
Qed.

(** C7.  [_calculate_overshoot] is 0 for fewer than two samples or an initial
    error below 0.001 in magnitude; otherwise, for a positive initial error it
    is [max(0, -min e) / e[0] * 100], for a negative one
    [max(0, max e) / |e[0]| * 100]; on [1.0, 0.5, -0.3, 0.1] it is 30. *)
Theorem overshoot_formula (e : list Q) :
  ((length e < 2)%nat \/ Qabs (nth 0 e 0) < 0.001 -> _calculate_overshoot e = 0)
  /\ (~ ((length e < 2)%nat \/ Qabs (nth 0 e 0) < 0.001) ->
      (0 < nth 0 e 0 ->
       _calculate_overshoot e == Qmax 0 (- Np.min e) / nth 0 e 0 * 100)
      /\ (nth 0 e 0 < 0 ->
          _calculate_overshoot e == Qmax 0 (Np.max e) / Qabs (nth 0 e 0) * 100))
  /\ _calculate_overshoot [1.0; 0.5; -0.3; 0.1] == 30.
Proof.
  split; [|split].
  - intros [Hlen | Hsmall]; unfold _calculate_overshoot.
    + apply Nat.ltb_lt in Hlen. now rewrite Hlen.
    + destruct (Nat.ltb (length e) 2); trivial.
      apply Qltb_lt in Hsmall. now rewrite Hsmall.
  - intros Hn. unfold _calculate_overshoot.
    destruct (Nat.ltb (length e) 2) eqn:Hlen.
    { exfalso. apply Hn. left. now apply Nat.ltb_lt. }
    destruct (Qltb (Qabs (nth 0 e 0)) 0.001) eqn:Hsmall.
    { exfalso. apply Hn. right. now apply Qltb_lt. }
    set (e0 := nth 0 e 0) in *.
    split; intros Hsign.
    + assert (Hg : Qgtb e0 0 = true) by now apply Qgtb_gt.
      rewrite Hg. destruct (Qltb (Np.min e) 0) eqn:Hm; qcases.
      * rewrite Q.max_r by lra. rewrite Qabs_neg.
        -- field. lra.
        -- apply Qle_shift_div_r; lra.
      * rewrite Q.max_l by lra. field. lra.
    + assert (Hg : Qgtb e0 0 = false) by (apply Qgtb_le; lra).
      rewrite Hg. rewrite (Qabs_neg e0) by lra.
      destruct (Qgtb (Np.max e) 0) eqn:Hm; qcases.
      * rewrite Q.max_r by lra. rewrite Qabs_neg.
        -- field. lra.
        -- setoid_replace (Np.max e / e0) with (- (Np.max e / - e0)) by (field; lra).
           assert (0 <= Np.max e / - e0) by (apply Qle_shift_div_l; lra). lra.
      * rewrite Q.max_l by lra. field. lra.
  - vm_compute. reflexivity.
Qed.

(* ================================================================== *)
(** ** Resampler *)
(* ================================================================== *)

Section Interp.

Local Abbreviation sorted := (StronglySorted Qlt).

Lemma sorted_hd_le (a : Q) (r : list Q) (i : nat) :
  sorted (a :: r) -> (i < length (a :: r))%nat -> a <= nth i (a :: r) 0.
Proof.
  intros HS Hi. apply StronglySorted_inv in HS as [_ F].
  destruct i as [|i]; simpl; [lra|].
  simpl in Hi. rewrite Forall_forall in F.
  apply Qlt_le_weak, F, nth_In. lia.
Qed.

(** On strictly increasing knots the linear scan started behind the first
    knot stops at the knot that was asked for. *)
Lemma scan_at_knot (l : list Q) :
  sorted l -> forall i, (i < length l)%nat -> Np.scan (nth i l 0) (tl l) = i.
Proof.
  induction 1 as [|a r HS IH F]; intros i Hi; [simpl in Hi; lia|].
  destruct i as [|i].
  - destruct r as [|b r']; simpl; trivial.
    apply Forall_inv in F.
    assert (E : Qgeb a b = false) by now apply Qgeb_lt.
    now rewrite E.
  - simpl in Hi. assert (Hi' : (i < length r)%nat) by lia.
    change (nth (S i) (a :: r) 0) with (nth i r 0). cbn [tl].
    specialize (IH i Hi').
    destruct r as [|b r']; [simpl in Hi'; lia|].
    assert (E : Qgeb (nth i (b :: r') 0) b = true).
    { apply Qgeb_ge. now apply sorted_hd_le. }
    cbn [Np.scan]. rewrite E. f_equal. exact IH.
Qed.

Lemma sorted_le_last (l : list Q) :
  sorted l -> forall i, (i < length l)%nat -> nth i l 0 <= last l 0.
Proof.
  induction 1 as [|a r HS IH F]; intros i Hi; [simpl in Hi; lia|].
  destruct r as [|b r'].
  - destruct i; simpl in *; [lra | lia].
  - change (last (a :: b :: r') 0) with (last (b :: r') 0).
    destruct i as [|i].
    + simpl nth. apply Forall_inv in F.
      specialize (IH O ltac:(simpl; lia)). simpl nth in IH. lra.
    + apply IH. simpl in *. lia.
Qed.

Lemma binary_search_at_knot (l : list Q) (i : nat) :
  sorted l -> (i < length l)%nat ->
  Np.binary_search (nth i l 0) l = Z.of_nat i.
Proof.
  intros HS Hi. unfold Np.binary_search.
  assert (E1 : Qgtb (nth i l 0) (last l 0) = false).
  { apply Qgtb_le. now apply sorted_le_last. }
  assert (E2 : Qltb (nth i l 0) (hd 0 l) = false).
  { apply Qltb_ge. destruct l as [|a r]; [simpl in Hi; lia|].
    now apply sorted_hd_le. }
  rewrite E1, E2. f_equal. now apply scan_at_knot.
Qed.

(** At a knot of strictly increasing sample points the interpolant returns
    the sample stored there, untouched by arithmetic. *)
Lemma interp_at_knot (xp fp : list Q) (i : nat) :
  sorted xp -> (i < length xp)%nat ->
  Np.interp_at xp fp (nth i xp 0) = nth i fp 0.
Proof.
  intros HS Hi. unfold Np.interp_at.
  destruct (Nat.eqb (length xp) 1) eqn:E1.
  - apply Nat.eqb_eq in E1.
    assert (i = O) by lia. subst i.
    destruct xp as [|a r]; [discriminate|]. simpl nth. simpl hd.
    assert (L : Qltb a a = false) by (apply Qltb_ge; lra).
    unfold Qgtb. rewrite L. now destruct fp.
  - rewrite binary_search_at_knot by assumption.
    destruct (Z.eqb_spec (Z.of_nat i) (-1)); [lia|].
    destruct (Z.eqb_spec (Z.of_nat i) (Z.of_nat (length xp))); [lia|].
    rewrite Nat2Z.id.
    destruct (Z.of_nat i =? Z.of_nat (length xp) - 1)%Z; trivial.
    assert (E : Qeq_bool (nth i xp 0) (nth i xp 0) = true).
    { apply Qeq_bool_iff. reflexivity. }
    now rewrite E.
Qed.

End Interp.

Lemma channel_lengths {V} (c : channel V) :
  length (values_of c) = length (timestamps_of c).
Proof. unfold values_of, timestamps_of. now rewrite !length_map. Qed.

(** C9, the claim as stated fails: two samples sharing a timestamp are
    non-decreasing, and resampling them onto their own timestamps returns the
    later value twice. *)
Lemma resample_ties_counterexample :
  StronglySorted Qle (timestamps_of [ (0, 1); (0, 2) ])
  /\ interp_to_common (NdArray (timestamps_of [ (0, 1); (0, 2) ]))
                      (NdArray (values_of [ (0, 1); (0, 2) ]))
                      (timestamps_of [ (0, 1); (0, 2) ])
     = Ok [2; 2]
  /\ Ok [2; 2] <> Ok (values_of [ (0, 1); (0, 2) ]).
Proof.
  split; [|split].
  - repeat constructor; discriminate.
  - reflexivity.
  - discriminate.
Qed.

(** C9, amended: for a non-empty channel with strictly increasing
    timestamps, resampling onto its own timestamps returns the original
    values exactly. *)
Theorem resample_onto_own_timestamps (c : channel Q) :
  c <> [] ->
  StronglySorted Qlt (timestamps_of c) ->
  interp_to_common (NdArray (timestamps_of c)) (NdArray (values_of c))
                   (timestamps_of c)
  = Ok (values_of c).
Proof.
  intros Hne HS. unfold interp_to_common, len, elems.
  rewrite channel_lengths.
  assert (Hlen : length (timestamps_of c) <> O).
  { unfold timestamps_of. rewrite length_map. destruct c; simpl; congruence. }
  apply Nat.eqb_neq in Hlen. rewrite Hlen. simpl orb.
  unfold Np.interp. rewrite Hlen, channel_lengths, Nat.eqb_refl. cbn [negb].
  f_equal. apply Nat.eqb_neq in Hlen.
  apply (nth_ext _ _ (Np.interp_at (timestamps_of c) (values_of c) 0) 0).
  - now rewrite length_map, channel_lengths.
  - intros i Hi. rewrite length_map in Hi.
    rewrite map_nth. now apply interp_at_knot.
Qed.

Lemma resample_onto_own_timestamps_witness :
  interp_to_common (NdArray (timestamps_of [ (0, 1); (0.5, 2); (2, -4) ]))
                   (NdArray (values_of [ (0, 1); (0.5, 2); (2, -4) ]))
                   (timestamps_of [ (0, 1); (0.5, 2); (2, -4) ])
  = Ok (values_of [ (0, 1); (0.5, 2); (2, -4) ]).
Proof.
  apply (resample_onto_own_timestamps [ (0, 1); (0.5, 2); (2, -4) ]).
  - discriminate.
  - repeat constructor.
Defined.

(* ================================================================== *)
(** ** Session extraction *)
(* ================================================================== *)

Lemma gvir_lengths {V} (t0 t1 : Q) (entry : option (channel V)) :
  len (fst (get_values_in_range t0 t1 entry))
  = len (snd (get_values_in_range t0 t1 entry)).
Proof.
  destruct entry as [c|]; simpl; trivial.
  unfold len, elems, timestamps_of, values_of. now rewrite !length_map.
Qed.

Lemma gvir_absent {V} (t0 t1 : Q) :
  get_values_in_range (V := V) t0 t1 None = (PyList [], PyList []).
Proof. reflexivity. Qed.

Lemma astype_present (t0 t1 : Q) (c : channel bool) (tb : arr Q) (vb : arr bool) :
  get_values_in_range t0 t1 (Some c) = (tb, vb) ->
  exists a, astype_float vb = Ok a /\ len tb = len a.
Proof.
  intros E. injection E as <- <-. eexists. split; [reflexivity|].
  unfold len, elems, timestamps_of, values_of. now rewrite !length_map.
Qed.

Lemma astype_absent (t0 t1 : Q) (tb : arr Q) (vb : arr bool) :
  get_values_in_range t0 t1 None = (tb, vb) ->
  astype_float vb = Raise AttributeError.
Proof. intros E. injection E as <- <-. reflexivity. Qed.

(** The resampler never raises on a source whose two arrays have one
    length, and its output is as long as the destination. *)
Lemma interp_to_common_ok (t_src vals : arr Q) (t_dest : list Q) :
  len t_src = len vals ->
  exists l, interp_to_common t_src vals t_dest = Ok l /\ length l = length t_dest.
Proof.
  intros L. unfold interp_to_common. rewrite <- L, orb_diag.
  destruct (Nat.eqb (len t_src) 0) eqn:E.
  - eexists. split; [reflexivity|]. unfold Np.zeros_like. now rewrite length_map.
  - unfold Np.interp. fold (len t_src). fold (len vals).
    rewrite E, <- L, Nat.eqb_refl. cbn [negb].
    eexists. split; [reflexivity|]. now rewrite length_map.
Qed.

(** An absent numeric channel is resampled to zeros. *)
Lemma interp_to_common_absent (t0 t1 : Q) (t_dest : list Q) :
  interp_to_common (fst (get_values_in_range (V := Q) t0 t1 None))
                   (snd (get_values_in_range (V := Q) t0 t1 None)) t_dest
  = Ok (map (fun _ => 0) t_dest).
Proof. reflexivity. Qed.

Lemma where_from_bounds (flags : list bool) :
  forall k i, In i (Np.where_from k flags) -> (k <= i < k + length flags)%nat.
Proof.
  induction flags as [|b r IH]; intros k i H; simpl in *; [contradiction|].
  destruct b.
  - destruct H as [<- | H]; [lia|]. apply IH in H. lia.
  - apply IH in H. lia.
Qed.

Lemma calculate_metrics_ok (ts fe le re fs ls rs : list Q) (ht af : list bool) :
  (length af <= length ts)%nat ->
  exists m, _calculate_metrics ts fe le re fs ls rs ht af = Ok m.
Proof.
  intros L. unfold _calculate_metrics.
  destruct (Np.any af); [|eexists; reflexivity].
  destruct (Np.where_ af) as [|i r] eqn:W; [eexists; reflexivity|].
  assert (Hi : (i < length af)%nat).
  { pose proof (where_from_bounds af 0 i) as B. unfold Np.where_ in W.
    rewrite W in B. specialize (B (or_introl eq_refl)). lia. }
  unfold index. destruct (nth_error ts i) eqn:N.
  - eexists. reflexivity.
  - apply nth_error_None in N. lia.
Qed.

Ltac stream E L :=
  match goal with
  | |- context [let '(_, _) := get_values_in_range ?a ?b ?c in _] =>
      pose proof (gvir_lengths a b c) as L;
      destruct (get_values_in_range a b c) as [? ?] eqn:E;
      cbn [fst snd] in L
  end.

Ltac resample E L :=
  match goal with
  | |- context [interp_to_common ?a ?b ?c] =>
      let l := fresh "l" in
      let H := fresh in
      assert (H : len a = len b) by congruence;
      destruct (interp_to_common_ok a b c H) as [l [E L]];
      rewrite E; cbn [bind]; clear H
  end.

Section Extraction.

Variables (d : LogData) (start_idx end_idx : nat).
Variables (st : channel string) (t0 t1 : Q).
Hypothesis Hstatus : status d = Some st.
Hypothesis Hstart : nth_error (timestamps_of st) start_idx = Some t0.
Hypothesis Hend : nth_error (timestamps_of st) end_idx = Some t1.

Local Abbreviation reference :=
  (reference_timestamps (fst (get_values_in_range t0 t1 (forward_error d)))
                        (fst (get_values_in_range t0 t1 (rotation_error d)))).

Lemma extract_short :
  t1 - t0 < 0.1 -> _extract_session d start_idx end_idx = Ok None.
Proof.
  intros H. unfold _extract_session. rewrite Hstatus. cbn [bind].
  rewrite (proj2 (index_Ok _ _ _) Hstart), (proj2 (index_Ok _ _ _) Hend). cbn [bind].
  apply Qltb_lt in H. now rewrite H.
Qed.

Lemma extract_no_reference :
  0.1 <= t1 - t0 -> reference = None ->
  _extract_session d start_idx end_idx = Ok None.
Proof.
  intros H R. unfold _extract_session. rewrite Hstatus. cbn [bind].
  rewrite (proj2 (index_Ok _ _ _) Hstart), (proj2 (index_Ok _ _ _) Hend). cbn [bind].
  apply Qltb_ge in H. rewrite H. revert R.
  stream E1 L1. stream E2 L2. stream E3 L3. stream E4 L4.
  stream E5 L5. stream E6 L6. stream E7 L7. stream E8 L8.
  cbn [fst]. intros R. now rewrite R.
Qed.

Ltac enter_extraction H :=
  unfold _extract_session; rewrite Hstatus; cbn [bind];
  rewrite (proj2 (index_Ok _ _ _) Hstart), (proj2 (index_Ok _ _ _) Hend); cbn [bind];
  apply Qltb_ge in H; rewrite H.

(** With the reference chosen, a missing [vision_has_target] entry makes
    [has_target.astype(float)] fail: the helper returned a Python list. *)
Lemma extract_without_target (ref : list Q) :
  0.1 <= t1 - t0 -> reference = Some ref ->
  vision_has_target d = None ->
  _extract_session d start_idx end_idx = Raise AttributeError.
Proof.
  intros H R Hv. enter_extraction H. revert R. rewrite Hv.
  stream E1 L1. stream E2 L2. stream E3 L3. stream E4 L4.
  stream E5 L5. stream E6 L6. stream E7 L7. stream E8 L8.
  cbn [fst]. intros R. rewrite R.
  resample F1 M1. resample F2 M2. resample F3 M3.
  resample F4 M4. resample F5 M5. resample F6 M6.
  now rewrite (astype_absent _ _ _ _ E7).
Qed.

Lemma extract_without_aligned (ref : list Q) (c : channel bool) :
  0.1 <= t1 - t0 -> reference = Some ref ->
  vision_has_target d = Some c -> fully_aligned d = None ->
  _extract_session d start_idx end_idx = Raise AttributeError.
Proof.
  intros H R Hv Ha. enter_extraction H. revert R. rewrite Hv, Ha.
  stream E1 L1. stream E2 L2. stream E3 L3. stream E4 L4.
  stream E5 L5. stream E6 L6. stream E7 L7. stream E8 L8.
  cbn [fst]. intros R. rewrite R.
  resample F1 M1. resample F2 M2. resample F3 M3.
  resample F4 M4. resample F5 M5. resample F6 M6.
  destruct (astype_present _ _ _ _ _ E7) as [arr7 [A7 LA7]]. rewrite A7. cbn [bind].
  resample F7 M7.
  now rewrite (astype_absent _ _ _ _ E8).
Qed.

(** With both flag channels in the log the extraction goes through, and
    every array of the session has the length of the reference. *)
Lemma extract_kept (ref : list Q) (c c' : channel bool) :
  0.1 <= t1 - t0 -> reference = Some ref ->
  vision_has_target d = Some c -> fully_aligned d = Some c' ->
  exists sess,
    _extract_session d start_idx end_idx = Ok (Some sess)
    /\ start_time sess = t0 /\ end_time sess = t1
    /\ duration sess = t1 - t0
    /\ timestamps sess = map (fun t => t - t0) ref
    /\ length (s_forward_error sess) = length ref
    /\ length (s_lateral_error sess) = length ref
    /\ length (s_rotation_error sess) = length ref
    /\ length (s_forward_speed sess) = length ref
    /\ length (s_lateral_speed sess) = length ref
    /\ length (s_rotation_speed sess) = length ref
    /\ length (has_target sess) = length ref
    /\ length (aligned_flags sess) = length ref
    /\ _calculate_metrics (timestamps sess)
         (s_forward_error sess) (s_lateral_error sess) (s_rotation_error sess)
         (s_forward_speed sess) (s_lateral_speed sess) (s_rotation_speed sess)
         (has_target sess) (aligned_flags sess)
       = Ok (metrics sess).
Proof.
  intros H R Hv Ha. enter_extraction H. revert R. rewrite Hv, Ha.
  stream E1 L1. stream E2 L2. stream E3 L3. stream E4 L4.
  stream E5 L5. stream E6 L6. stream E7 L7. stream E8 L8.
  cbn [fst]. intros R. rewrite R.
  resample F1 M1. resample F2 M2. resample F3 M3.
  resample F4 M4. resample F5 M5. resample F6 M6.
  destruct (astype_present _ _ _ _ _ E7) as [arr7 [A7 LA7]]. rewrite A7. cbn [bind].
  resample F7 M7.
  destruct (astype_present _ _ _ _ _ E8) as [arr8 [A8 LA8]]. rewrite A8. cbn [bind].
  resample F8 M8.
  match goal with
  | |- context [_calculate_metrics ?ts ?a1 ?a2 ?a3 ?a4 ?a5 ?a6 ?ht ?af] =>
      destruct (calculate_metrics_ok ts a1 a2 a3 a4 a5 a6 ht af) as [m Hm]
  end.
  { unfold threshold. rewrite !length_map. lia. }
  rewrite Hm. cbn [bind]. eexists. split; [reflexivity|].
  cbn [start_time end_time duration timestamps metrics s_forward_error
       s_lateral_error s_rotation_error s_forward_speed s_lateral_speed
       s_rotation_speed has_target aligned_flags].
  unfold threshold in *. rewrite !length_map. tauto.
Qed.

(** What an extracted session tells about the call that produced it. *)
Lemma extract_some_inv (sess : AlignmentSession) :
  _extract_session d start_idx end_idx = Ok (Some sess) ->
  0.1 <= t1 - t0
  /\ exists ref, reference = Some ref
     /\ start_time sess = t0 /\ end_time sess = t1
     /\ duration sess = t1 - t0
     /\ timestamps sess = map (fun t => t - t0) ref
     /\ _calculate_metrics (timestamps sess)
          (s_forward_error sess) (s_lateral_error sess) (s_rotation_error sess)
          (s_forward_speed sess) (s_lateral_speed sess) (s_rotation_speed sess)
          (has_target sess) (aligned_flags sess)
        = Ok (metrics sess).
Proof.
  intros E.
  destruct (Qlt_le_dec (t1 - t0) 0.1) as [Hs | Hd].
  { rewrite (extract_short Hs) in E. discriminate. }
  split; [exact Hd|].
  destruct reference as [ref|] eqn:R.
  2:{ rewrite (extract_no_reference Hd R) in E. discriminate. }
  exists ref. split; [reflexivity|].
  destruct (vision_has_target d) as [c|] eqn:Hv.
  2:{ rewrite (extract_without_target ref Hd R Hv) in E. discriminate. }
  destruct (fully_aligned d) as [c'|] eqn:Ha.
  2:{ rewrite (extract_without_aligned ref c Hd R Hv Ha) in E. discriminate. }
  destruct (extract_kept ref c c' Hd R Hv Ha) as [s' [E' P]].
  rewrite E' in E. injection E as <-. tauto.
Qed.

End Extraction.

(** Without the section's assumptions: an extracted session has its
    boundaries on the status channel. *)
Lemma extract_some_status (d : LogData) (start_idx end_idx : nat)
  (sess : AlignmentSession) :
  _extract_session d start_idx end_idx = Ok (Some sess) ->
  exists st t0 t1,
    status d = Some st
    /\ nth_error (timestamps_of st) start_idx = Some t0
    /\ nth_error (timestamps_of st) end_idx = Some t1.
Proof.
  unfold _extract_session. intros E.
  destruct (status d) as [st|]; [|discriminate]. cbn [bind] in E.
  unfold index in E.
  destruct (nth_error (timestamps_of st) start_idx) as [t0|] eqn:N0; [|discriminate].
  cbn [bind] in E.
  destruct (nth_error (timestamps_of st) end_idx) as [t1|] eqn:N1; [|discriminate].
  now exists st, t0, t1.
Qed.

(* ================================================================== *)
(** ** Segmenter *)
(* ================================================================== *)

Lemma index_app_middle {A} (pre rest : list A) (x : A) :
  index (pre ++ x :: rest) (length pre) = Ok x.
Proof.
  apply index_Ok. rewrite nth_error_app2 by lia.
  now rewrite Nat.sub_diag.
Qed.

(** The loop of [find_alignment_sessions], resumed at any index in any
    machine state, together with the code that follows the loop, attempts
    exactly the ranges the machine produces from there. *)
Lemma scan_loop_refines (d : LogData) (rest : list string) :
  forall (pre : list string) (seg : SegState) (acc : list AlignmentSession),
    (st' <- scan_loop d (pre ++ rest) (scan_state_of seg acc)
              (seq (length pre) (length rest)) ;;
     match in_session st', session_start_idx st' with
     | true, Some start_idx =>
         session <- _extract_session d start_idx (length (pre ++ rest) - 1) ;;
         Ok (append_session (sessions st') session)
     | _, _ => Ok (sessions st')
     end)
    = extract_all d (seg_run seg (length pre) rest) acc.
Proof.
  induction rest as [|x rest IH]; intros pre seg acc.
  - rewrite app_nil_r. destruct seg; reflexivity.
  - cbn [length seq scan_loop]. unfold scan_step.
    rewrite index_app_middle. cbn [bind].
    specialize (IH (pre ++ [x])).
    rewrite <- app_assoc, length_app, Nat.add_1_r in IH. cbn [app] in IH.
    destruct seg as [|s]; cbn [scan_state_of in_session session_start_idx sessions
                                negb andb seg_run seg_step].
    + destruct (is_start x).
      * exact (IH (IN_SESSION (length pre)) acc).
      * exact (IH IDLE acc).
    + destruct (is_end x).
      * cbn [bind extract_all].
        destruct (_extract_session d s (length pre)) as [session|e]; cbn [bind].
        -- exact (IH IDLE (append_session acc session)).
        -- reflexivity.
      * exact (IH (IN_SESSION s) acc).
Qed.

(** [find_alignment_sessions] is the machine followed by extraction. *)
Lemma find_alignment_sessions_segments (d : LogData) :
  find_alignment_sessions d =
  match status d with
  | None => Ok []
  | Some status_data => extract_all d (segments (values_of status_data)) []
  end.
Proof.
  unfold find_alignment_sessions. destruct (status d) as [st|]; trivial.
  pose proof (scan_loop_refines d (values_of st) [] IDLE []) as R.
  cbn [app length scan_state_of] in R.
  rewrite <- channel_lengths. exact R.
Qed.

Lemma ranges_ordered_weaken (ranges : list (nat * nat)) (lo lo' : nat) :
  (lo' <= lo)%nat -> ranges_ordered lo ranges -> ranges_ordered lo' ranges.
Proof.
  destruct ranges as [|[s e] rest]; simpl; trivial.
  intros L [H1 H2]. split; [lia | exact H2].
Qed.

(** The machine emits its ranges in increasing order, none of them empty,
    none overlapping the one before. *)
Lemma seg_run_ordered (rest : list string) :
  forall (seg : SegState) (i : nat),
    match seg with IDLE => True | IN_SESSION s => (s < i)%nat end ->
    ranges_ordered (match seg with IDLE => i | IN_SESSION s => s end)
                   (seg_run seg i rest).
Proof.
  induction rest as [|x rest IH]; intros seg i Hseg.
  - destruct seg as [|s]; simpl; trivial. lia.
  - destruct seg as [|s]; cbn [seg_run seg_step].
    + destruct (is_start x).
      * apply (IH (IN_SESSION i) (S i)). lia.
      * apply ranges_ordered_weaken with (lo := S i); [lia|].
        exact (IH IDLE (S i) I).
    + destruct (is_end x).
      * cbn [ranges_ordered]. repeat split; try lia.
        exact (IH IDLE (S i) I).
      * apply (IH (IN_SESSION s) (S i)). lia.
Qed.

Lemma segments_ordered (statuses : list string) :
  ranges_ordered 0 (segments statuses).
Proof. exact (seg_run_ordered statuses IDLE 0 I). Qed.

Lemma ranges_ordered_sorted (ranges : list (nat * nat)) :
  forall lo, ranges_ordered lo ranges ->
    Forall (fun r => (lo <= fst r <= snd r)%nat) ranges
    /\ StronglySorted (fun r1 r2 => (snd r1 < fst r2)%nat) ranges.
Proof.
  induction ranges as [|[s e] rest IH]; intros lo H.
  - split; constructor.
  - destruct H as [H1 [H2 H3]]. destruct (IH _ H3) as [F S'].
    split.
    + constructor; [simpl; lia|].
      eapply Forall_impl; [|exact F]. simpl. intros r Hr. lia.
    + constructor; [exact S'|].
      eapply Forall_impl; [|exact F]. simpl. intros r Hr. lia.
Qed.

(** The sessions returned by [extract_all] are those of an ordered
    selection of the ranges it was given. *)
Lemma extract_all_kept (d : LogData) (ranges : list (nat * nat)) :
  forall (acc l : list AlignmentSession) (lo : nat),
    ranges_ordered lo ranges ->
    extract_all d ranges acc = Ok l ->
    exists new kept,
      l = acc ++ new
      /\ ranges_ordered lo kept
      /\ Forall2 (fun r s => _extract_session d (fst r) (snd r) = Ok (Some s))
                 kept new.
Proof.
  induction ranges as [|[s e] rest IH]; intros acc l lo Hord E.
  - injection E as <-. exists [], []. rewrite app_nil_r.
    repeat split; constructor.
  - cbn [extract_all] in E. destruct Hord as [H1 [H2 H3]].
    destruct (_extract_session d s e) as [[x|]|err] eqn:X; cbn [bind] in E.
    + destruct (IH _ _ _ H3 E) as [new [kept [-> [Hk F]]]].
      exists (x :: new), ((s, e) :: kept). cbn [append_session].
      rewrite <- app_assoc. repeat split; trivial.
      constructor; trivial.
    + destruct (IH _ _ _ H3 E) as [new [kept [-> [Hk F]]]].
      exists new, kept. repeat split; trivial.
      apply ranges_ordered_weaken with (lo := S e); [lia | exact Hk].
    + discriminate.
Qed.

(** C4.  The scan of [find_alignment_sessions] is the two-state machine
    ([seg_step]: IDLE opens on STARTED or ALIGNING at the sample's index,
    IN_SESSION closes on COMPLETED or INTERRUPTED at the current index,
    nothing else moves it, and a session open at the end is closed at the
    last index): the sessions returned are the extractions of the machine's
    ranges, in order.  On the statuses IDLE, STARTED, ALIGNING, COMPLETED,
    IDLE, STARTED, INTERRUPTED the ranges are (1,3) and (5,6), whatever the
    log, and with timestamps 0.2 s apart the example log yields exactly two
    sessions, bounded by the timestamps at those indices. *)
Theorem segmenter_state_machine :
  (forall d : LogData,
      find_alignment_sessions d =
      match status d with
      | None => Ok []
      | Some status_data => extract_all d (segments (values_of status_data)) []
      end)
  /\ (forall (st : SegState) (i : nat) (status : string),
         seg_step st i status =
         match st with
         | IDLE => if is_start status then (IN_SESSION i, None) else (IDLE, None)
         | IN_SESSION s =>
             if is_end status then (IDLE, Some (s, i)) else (IN_SESSION s, None)
         end)
  /\ (forall s i : nat, seg_run (IN_SESSION s) i [] = [(s, (i - 1)%nat)])
  /\ (forall (d : LogData) (status_data : channel string),
         status d = Some status_data ->
         values_of status_data = values_of example_status ->
         find_alignment_sessions d = extract_all d [(1, 3); (5, 6)]%nat [])
  /\ (exists s1 s2,
         find_alignment_sessions example_log = Ok [s1; s2]
         /\ start_time s1 = 0.2 /\ end_time s1 = 0.6
         /\ start_time s2 = 1.0 /\ end_time s2 = 1.2).
Proof.
  split; [exact find_alignment_sessions_segments|].
  split; [reflexivity|].
  split; [reflexivity|].
  split.
  - intros d status_data Hs Hv.
    rewrite find_alignment_sessions_segments, Hs, Hv. reflexivity.
  - do 2 eexists. split; [vm_compute; reflexivity|].
    repeat split.
Qed.

Lemma segmenter_state_machine_witness :
  find_alignment_sessions example_log
  = extract_all example_log [(1, 3); (5, 6)]%nat [].
Proof.
  exact (proj1 (proj2 (proj2 (proj2 segmenter_state_machine)))
           example_log example_status eq_refl eq_refl).
Defined.

Lemma sorted_nth_le (ts : list Q) :
  StronglySorted Qle ts ->
  forall i j x y, (i <= j)%nat ->
    nth_error ts i = Some x -> nth_error ts j = Some y -> x <= y.
Proof.
  induction 1 as [|a r HS IH F]; intros i j x y L Hi Hj.
  - destruct i; discriminate.
  - destruct i as [|i], j as [|j]; simpl in Hi, Hj.
    + injection Hi as <-. injection Hj as <-. lra.
    + injection Hi as <-. rewrite Forall_forall in F.
      apply F. eapply nth_error_In; eauto.
    + lia.
    + apply (IH i j); trivial. lia.
Qed.

Lemma Forall2_sorted {A B} (P : A -> B -> Prop) (R : A -> A -> Prop)
  (R' : B -> B -> Prop) (la : list A) (lb : list B) :
  (forall a1 a2 b1 b2, P a1 b1 -> P a2 b2 -> R a1 a2 -> R' b1 b2) ->
  Forall2 P la lb -> StronglySorted R la -> StronglySorted R' lb.
Proof.
  intros HR F. induction F as [|a b la lb Hab F IH]; intros HS.
  - constructor.
  - apply StronglySorted_inv in HS as [HS Hall]. constructor; [now apply IH|].
    clear IH HS. induction F as [|a' b' la lb Hab' F IH]; constructor.
    + apply (HR a a' b b'); trivial. now apply Forall_inv in Hall.
    + apply IH. now apply Forall_inv_tail in Hall.
Qed.

(** C10.  Over a status channel with non-decreasing timestamps the sessions
    returned are in chronological order and do not overlap: each has
    [start_time <= end_time] and [duration = end_time - start_time >= 0.1],
    each comes from a status-index range, the ranges are disjoint with every
    later start index strictly above the earlier end index, and so every
    session ends no later than the next one starts. *)
Theorem sessions_ordered (d : LogData) (st : channel string)
  (l : list AlignmentSession) :
  status d = Some st ->
  StronglySorted Qle (timestamps_of st) ->
  find_alignment_sessions d = Ok l ->
  Forall (fun s => start_time s <= end_time s
                   /\ duration s = end_time s - start_time s
                   /\ 0.1 <= duration s) l
  /\ (exists ranges : list (nat * nat),
         Forall2 (fun r s =>
                    nth_error (timestamps_of st) (fst r) = Some (start_time s)
                    /\ nth_error (timestamps_of st) (snd r) = Some (end_time s))
                 ranges l
         /\ Forall (fun r => (fst r <= snd r)%nat) ranges
         /\ StronglySorted (fun r1 r2 => (snd r1 < fst r2)%nat) ranges)
  /\ StronglySorted (fun s1 s2 => end_time s1 <= start_time s2) l.
Proof.
  intros Hs Hsorted E.
  rewrite find_alignment_sessions_segments, Hs in E.
  destruct (extract_all_kept d _ _ _ _ (segments_ordered _) E)
    as [new [kept [-> [Hk F]]]].
  cbn [app].
  assert (Hinv : forall r s,
             _extract_session d (fst r) (snd r) = Ok (Some s) ->
             nth_error (timestamps_of st) (fst r) = Some (start_time s)
             /\ nth_error (timestamps_of st) (snd r) = Some (end_time s)
             /\ duration s = end_time s - start_time s
             /\ 0.1 <= duration s).
  { intros r s X.
    destruct (extract_some_status _ _ _ _ X) as [st' [t0 [t1 [Hs' [N0 N1]]]]].
    rewrite Hs in Hs'. injection Hs' as <-.
    destruct (extract_some_inv d _ _ st t0 t1 Hs N0 N1 s X)
      as [Hd [ref [_ [<- [<- [Hdur _]]]]]].
    rewrite Hdur. repeat split; trivial. }
  destruct (ranges_ordered_sorted _ _ Hk) as [Fk Sk].
  split; [|split].
  - clear Hk Fk Sk E. induction F as [|r s kept new X F IH]; constructor; trivial.
    destruct (Hinv r s X) as [_ [_ [Hdur Hlong]]].
    repeat split; trivial. rewrite Hdur in Hlong. lra.
  - exists kept. repeat split; trivial.
    + eapply Forall2_impl; [|exact F]. intros r s X.
      destruct (Hinv r s X) as [N0 [N1 _]]. now split.
    + eapply Forall_impl; [|exact Fk]. simpl. intros r Hr. lia.
  - apply (Forall2_sorted _ _ _ kept new) with (3 := Sk) (2 := F).
    intros r1 r2 s1 s2 X1 X2 Hlt.
    destruct (Hinv r1 s1 X1) as [_ [N1 _]].
    destruct (Hinv r2 s2 X2) as [N0 _].
    apply (sorted_nth_le _ Hsorted (snd r1) (fst r2)); trivial. lia.
Qed.

Lemma sessions_ordered_witness :
  exists l,
    find_alignment_sessions example_log = Ok l
    /\ length l = 2%nat
    /\ StronglySorted (fun s1 s2 => end_time s1 <= start_time s2) l.
Proof.
  eexists. split; [vm_compute; reflexivity|]. split; [reflexivity|].
  refine (proj2 (proj2 (sessions_ordered example_log example_status _ eq_refl _ _))).
  - repeat (constructor; try (vm_compute; discriminate)).
  - vm_compute. reflexivity.
Defined.

(* ================================================================== *)
(** ** Short sessions *)
(* ================================================================== *)

(** The duration filter of [_extract_session]: a candidate range whose
    boundary timestamps are less than 0.1 s apart is dropped without an
    error; one that spans 0.1 s or more, 0.1 s included, and has reference
    timestamps inside it is never dropped, and is kept as a session with
    those boundaries when the log has both flag channels.  When the range is
    the only one of the status channel, the log yields no session in the
    first case and exactly one in the second. *)
Theorem short_session_filter (d : LogData) (start_idx end_idx : nat)
  (st : channel string) (t0 t1 : Q) :
  status d = Some st ->
  nth_error (timestamps_of st) start_idx = Some t0 ->
  nth_error (timestamps_of st) end_idx = Some t1 ->
  (t1 - t0 < 0.1 ->
   _extract_session d start_idx end_idx = Ok None
   /\ (segments (values_of st) = [(start_idx, end_idx)] ->
       find_alignment_sessions d = Ok []))
  /\ (0.1 <= t1 - t0 ->
      reference_timestamps
        (fst (get_values_in_range t0 t1 (forward_error d)))
        (fst (get_values_in_range t0 t1 (rotation_error d))) <> None ->
      _extract_session d start_idx end_idx <> Ok None
      /\ (vision_has_target d <> None ->
          fully_aligned d <> None ->
          exists sess,
            _extract_session d start_idx end_idx = Ok (Some sess)
            /\ start_time sess = t0 /\ end_time sess = t1
            /\ duration sess = t1 - t0
            /\ (segments (values_of st) = [(start_idx, end_idx)] ->
                find_alignment_sessions d = Ok [sess]))).
Proof.
  intros Hs N0 N1. split.
  - intros Hshort.
    pose proof (extract_short d _ _ st t0 t1 Hs N0 N1 Hshort) as E.
    split; [exact E|]. intros Hseg.
    rewrite find_alignment_sessions_segments, Hs, Hseg.
    cbn [extract_all]. rewrite E. reflexivity.
  - intros Hlong Href.
    destruct (reference_timestamps _ _) as [ref|] eqn:R; [clear Href|congruence].
    destruct (vision_has_target d) as [c|] eqn:Ev.
    2:{ rewrite (extract_without_target d _ _ st t0 t1 Hs N0 N1 ref Hlong R Ev).
        split; [discriminate | congruence]. }
    destruct (fully_aligned d) as [c'|] eqn:Ea.
    2:{ rewrite (extract_without_aligned d _ _ st t0 t1 Hs N0 N1 ref c Hlong R Ev Ea).
        split; [discriminate | congruence]. }
    destruct (extract_kept d _ _ st t0 t1 Hs N0 N1 ref c c' Hlong R Ev Ea)
      as [sess [E [P0 [P1 [P2 _]]]]].
    split; [rewrite E; discriminate|]. intros _ _.
    exists sess. repeat split; trivial. intros Hseg.
    rewrite find_alignment_sessions_segments, Hs, Hseg.
    cbn [extract_all]. rewrite E. reflexivity.
Qed.

Lemma short_session_filter_witness :
  find_alignment_sessions (pair_log 0 0.05 [ (0.01, 1) ]) = Ok []
  /\ exists sess,
       find_alignment_sessions (pair_log 0 0.1 [ (0.01, 1) ]) = Ok [sess]
       /\ duration sess = 0.1 - 0.
Proof.
  split.
  - refine (proj2 (proj1 (short_session_filter (pair_log 0 0.05 [ (0.01, 1) ])
                            0 1 _ 0 0.05 eq_refl eq_refl eq_refl) _) eq_refl).
    reflexivity.
  - assert (Hlong : 0.1 <= 0.1 - 0) by discriminate.
    assert (Href : reference_timestamps
                     (fst (get_values_in_range 0 0.1
                             (forward_error (pair_log 0 0.1 [ (0.01, 1) ]))))
                     (fst (get_values_in_range 0 0.1
                             (rotation_error (pair_log 0 0.1 [ (0.01, 1) ]))))
                   <> None) by discriminate.
    destruct (proj2 (proj2 (short_session_filter (pair_log 0 0.1 [ (0.01, 1) ])
                              0 1 _ 0 0.1 eq_refl eq_refl eq_refl) Hlong Href))
      as [sess [_ [_ [_ [D F]]]]].
    + discriminate.
    + discriminate.
    + exists sess. split; [exact (F eq_refl) | exact D].
Defined.

(** C8, the code against the claim: a STARTED/COMPLETED pair exactly 0.1 s
    apart, with a forward-error sample inside the range, in a log that has no
    [Vision/HasTarget] field.  The range passes the duration test and has
    reference timestamps, so the claim has it kept as one session; the code
    goes on to [has_target.astype(float)] on a Python list, and extraction,
    and with it the whole segmentation, ends in an [AttributeError] (the
    defect of C2).  The same pair 0.05 s apart is dropped as claimed. *)
Theorem long_session_lost_without_target :
  0.1 <= 0.1 - 0
  /\ reference_timestamps
       (fst (get_values_in_range 0 0.1
               (forward_error (pair_log_without_target 0 0.1 [ (0.01, 1) ]))))
       (fst (get_values_in_range 0 0.1
               (rotation_error (pair_log_without_target 0 0.1 [ (0.01, 1) ]))))
     = Some [0.01]
  /\ _extract_session (pair_log_without_target 0 0.1 [ (0.01, 1) ]) 0 1
     = Raise AttributeError
  /\ find_alignment_sessions (pair_log_without_target 0 0.1 [ (0.01, 1) ])
     = Raise AttributeError
  /\ find_alignment_sessions (pair_log_without_target 0 0.05 [ (0.01, 1) ])
     = Ok [].
Proof.
  split; [discriminate|]. split; [reflexivity|]. split.
  - apply (extract_without_target (pair_log_without_target 0 0.1 [ (0.01, 1) ])
             0 1 _ 0 0.1 eq_refl eq_refl eq_refl [0.01]);
      [discriminate | reflexivity | reflexivity].
  - split; vm_compute; reflexivity.
Qed.

(* ================================================================== *)
(** ** Reference time base *)
(* ================================================================== *)

Lemma reference_cases (a b : arr Q) :
  reference_timestamps a b =
  match elems a, elems b with
  | _ :: _, _ => Some (elems a)
  | [], _ :: _ => Some (elems b)
  | [], [] => None
  end.
Proof.
  unfold reference_timestamps, len.
  destruct (elems a); [destruct (elems b)|]; reflexivity.
Qed.

Lemma gvir_in_range {V} (t0 t1 : Q) (entry : option (channel V)) (t : Q) :
  In t (elems (fst (get_values_in_range t0 t1 entry))) -> t0 <= t <= t1.
Proof.
  destruct entry as [c|]; simpl; [|contradiction].
  unfold timestamps_of. rewrite in_map_iff. intros [[t' v] [<- H]].
  apply filter_In in H as [_ H]. apply andb_prop in H as [H0 H1].
  simpl in *. qcases. now split.
Qed.

(** The rule the code follows: the reference timestamps are those of the
    forward-error channel inside the range whenever it has at least one
    sample there, otherwise those of the rotation-error channel; when neither
    channel has a sample inside the range the session is discarded.  The
    numbers of samples are never compared. *)
Lemma reference_forward_first (d : LogData) (start_idx end_idx : nat)
  (st : channel string) (t0 t1 : Q) :
  status d = Some st ->
  nth_error (timestamps_of st) start_idx = Some t0 ->
  nth_error (timestamps_of st) end_idx = Some t1 ->
  0.1 <= t1 - t0 ->
  let t_forward_err := elems (fst (get_values_in_range t0 t1 (forward_error d))) in
  let t_rotation_err := elems (fst (get_values_in_range t0 t1 (rotation_error d))) in
  (t_forward_err = [] -> t_rotation_err = [] ->
   _extract_session d start_idx end_idx = Ok None)
  /\ (forall sess,
         _extract_session d start_idx end_idx = Ok (Some sess) ->
         (t_forward_err <> [] ->
          timestamps sess = map (fun t => t - t0) t_forward_err)
         /\ (t_forward_err = [] ->
             t_rotation_err <> []
             /\ timestamps sess = map (fun t => t - t0) t_rotation_err)).
Proof.
  intros Hs N0 N1 Hlong tf tr. split.
  - intros Hf Hr. apply (extract_no_reference d _ _ st t0 t1 Hs N0 N1 Hlong).
    rewrite reference_cases. fold tf tr. now rewrite Hf, Hr.
  - intros sess E.
    destruct (extract_some_inv d _ _ st t0 t1 Hs N0 N1 sess E)
      as [_ [ref [R [_ [_ [_ [T _]]]]]]].
    rewrite reference_cases in R. fold tf tr in R.
    split; intros Hf.
    + destruct tf; [congruence|]. injection R as <-. exact T.
    + rewrite Hf in R. destruct tr; [discriminate|].
      injection R as <-. split; [discriminate | exact T].
Qed.

(** C3, the code against the claim: one attempt with a single forward-error
    sample and three rotation-error samples inside the range.  The channel
    with the most samples in range is the rotation error, with timestamps
    0.1, 0.5, 0.9; the code, which takes the forward-error timestamps as soon
    as there is one, builds the session on the single timestamp 0.5. *)
Theorem reference_ignores_sample_count :
  exists sess,
    _extract_session sparse_forward_log 0 1 = Ok (Some sess)
    /\ most_samples_reference
         (fst (get_values_in_range 0 1 (forward_error sparse_forward_log)))
         (fst (get_values_in_range 0 1 (rotation_error sparse_forward_log)))
       = Some [0.1; 0.5; 0.9]
    /\ timestamps sess = map (fun t => t - 0) [0.5]
    /\ timestamps sess <> map (fun t => t - 0) [0.1; 0.5; 0.9].
Proof.
  eexists. split; [vm_compute; reflexivity|].
  split; [reflexivity|]. split; [reflexivity|]. discriminate.
Qed.

(* ================================================================== *)
(** ** Session-relative time *)
(* ================================================================== *)

(** C6, the claim as stated fails: in the example log the first session
    opens at the status sample at 0.2 s and its first forward-error sample
    lies at 0.25 s, so its time array starts at 0.05, not at 0. *)
Lemma relative_time_counterexample :
  exists s1 s2,
    find_alignment_sessions example_log = Ok [s1; s2]
    /\ nth 0 (timestamps s1) 0 == 0.05
    /\ ~ nth 0 (timestamps s1) 0 == 0.
Proof.
  do 2 eexists. split; [vm_compute; reflexivity|].
  split; [reflexivity|]. discriminate.
Qed.

(** C6, amended: the metrics of an extracted session are computed on the
    array [t = ref - start_time], where [ref] is the reference array the code
    chooses among the forward-error and rotation-error timestamps inside the
    window (it is not empty) and [start_time] is the status-channel timestamp
    of the sample that opened the session; every [t[i]] lies between 0 and
    the duration, and [t[0]] is 0 exactly when the first reference sample
    carries the timestamp [start_time]. *)
Theorem relative_time_base (d : LogData) (start_idx end_idx : nat)
  (sess : AlignmentSession) :
  _extract_session d start_idx end_idx = Ok (Some sess) ->
  exists st ref,
    status d = Some st
    /\ nth_error (timestamps_of st) start_idx = Some (start_time sess)
    /\ nth_error (timestamps_of st) end_idx = Some (end_time sess)
    /\ reference_timestamps
         (fst (get_values_in_range (start_time sess) (end_time sess)
                 (forward_error d)))
         (fst (get_values_in_range (start_time sess) (end_time sess)
                 (rotation_error d)))
       = Some ref
    /\ ref <> []
    /\ Forall (fun r => start_time sess <= r <= end_time sess) ref
    /\ timestamps sess = map (fun t => t - start_time sess) ref
    /\ Forall (fun t => 0 <= t <= duration sess) (timestamps sess)
    /\ (nth 0 (timestamps sess) 0 == 0 <-> nth 0 ref 0 == start_time sess)
    /\ _calculate_metrics (timestamps sess)
         (s_forward_error sess) (s_lateral_error sess) (s_rotation_error sess)
         (s_forward_speed sess) (s_lateral_speed sess) (s_rotation_speed sess)
         (has_target sess) (aligned_flags sess)
       = Ok (metrics sess).
Proof.
  intros E.
  destruct (extract_some_status _ _ _ _ E) as [st [t0 [t1 [Hs [N0 N1]]]]].
  destruct (extract_some_inv d _ _ st t0 t1 Hs N0 N1 sess E)
    as [_ [ref [R [T0 [T1 [D [T M]]]]]]].
  exists st, ref. rewrite T0, T1, D.
  assert (Hin : forall t, In t ref -> t0 <= t <= t1).
  { intros t Ht. pose proof R as R'. rewrite reference_cases in R'.
    destruct (elems (fst (get_values_in_range t0 t1 (forward_error d)))) eqn:Ef.
    - destruct (elems (fst (get_values_in_range t0 t1 (rotation_error d)))) eqn:Er;
        [discriminate|].
      injection R' as <-. rewrite <- Er in Ht. exact (gvir_in_range _ _ _ _ Ht).
    - injection R' as <-. rewrite <- Ef in Ht. exact (gvir_in_range _ _ _ _ Ht). }
  assert (Hne : ref <> []).
  { pose proof R as R'. rewrite reference_cases in R'. intros ->.
    destruct (elems (fst (get_values_in_range t0 t1 (forward_error d))));
      [destruct (elems (fst (get_values_in_range t0 t1 (rotation_error d))))|];
      discriminate. }
  split; [exact Hs|]. split; [exact N0|]. split; [exact N1|].
  split; [exact R|]. split; [exact Hne|].
  split; [apply Forall_forall; exact Hin|].
  split; [exact T|].
  split; [|split; [|exact M]].
  - rewrite T. apply Forall_forall. intros x Hx.
    apply in_map_iff in Hx as [t [<- Ht]]. apply Hin in Ht. lra.
  - rewrite T. destruct ref as [|r0 ref']; [congruence|]. simpl. split; lra.
Qed.

Lemma relative_time_base_witness :
  exists sess,
    _extract_session example_log 1 3 = Ok (Some sess)
    /\ exists ref,
         reference_timestamps
           (fst (get_values_in_range (start_time sess) (end_time sess)
                   (forward_error example_log)))
           (fst (get_values_in_range (start_time sess) (end_time sess)
                   (rotation_error example_log)))
         = Some ref
         /\ timestamps sess = map (fun t => t - start_time sess) ref
         /\ Forall (fun t => 0 <= t <= duration sess) (timestamps sess).
Proof.
  eexists. split; [vm_compute; reflexivity|].
  match goal with
  | |- exists ref, _ /\ timestamps ?s = _ /\ _ =>
      destruct (relative_time_base example_log 1 3 s)
        as [st [ref [_ [_ [_ [R [_ [_ [T [F _]]]]]]]]]]
  end.
  - vm_compute. reflexivity.
  - exists ref. split; [exact R|]. split; [exact T | exact F].
Defined.

(* ================================================================== *)
(** ** Missing channels *)
(* ================================================================== *)

(** C2, the code against the claim: extraction does raise on a missing
    flag channel.  Once a candidate range is long enough and has reference
    timestamps, a log without the [vision_has_target] or the [fully_aligned]
    field makes [_extract_session] end in an [AttributeError]: the helper
    hands back Python lists for a missing entry, and [.astype(float)] is
    called on them.  (Missing numeric channels are resampled to zeros, see
    [interp_to_common_absent].) *)
Theorem missing_flag_channel_raises (d : LogData) (start_idx end_idx : nat)
  (st : channel string) (t0 t1 : Q) :
  status d = Some st ->
  nth_error (timestamps_of st) start_idx = Some t0 ->
  nth_error (timestamps_of st) end_idx = Some t1 ->
  0.1 <= t1 - t0 ->
  reference_timestamps
    (fst (get_values_in_range t0 t1 (forward_error d)))
    (fst (get_values_in_range t0 t1 (rotation_error d))) <> None ->
  vision_has_target d = None \/ fully_aligned d = None ->
  _extract_session d start_idx end_idx = Raise AttributeError.
Proof.
  intros Hs N0 N1 Hlong Href Habsent.
  destruct (reference_timestamps _ _) as [ref|] eqn:R; [|congruence].
  destruct (vision_has_target d) as [c|] eqn:Ev.
  - destruct Habsent as [Hv | Ha]; [discriminate|].
    exact (extract_without_aligned d _ _ st t0 t1 Hs N0 N1 ref c Hlong R Ev Ha).
  - exact (extract_without_target d _ _ st t0 t1 Hs N0 N1 ref Hlong R Ev).
Qed.

Lemma missing_flag_channel_raises_witness :
  _extract_session example_log_without_target 1 3 = Raise AttributeError.
Proof.
  apply (missing_flag_channel_raises example_log_without_target 1 3
           example_status 0.2 0.6 eq_refl eq_refl eq_refl).
  - discriminate.
  - discriminate.
  - left. reflexivity.
Defined.

(** The exception is not caught on the way up: the whole segmentation of
    that log fails. *)
Lemma missing_flag_channel_aborts_segmentation :
  find_alignment_sessions example_log_without_target = Raise AttributeError.
Proof. vm_compute. reflexivity. Qed.

(* ================================================================== *)
(** ** Settling time *)
(* ================================================================== *)

Lemma select_all_true (within_tol mask : list bool) :
  length within_tol = length mask ->
  Np.all (Np.select within_tol mask) = true ->
  forall k, nth k mask false = true -> nth k within_tol false = true.
Proof.
  revert mask. induction within_tol as [|w r IH]; intros [|m mask] L A k Hk;
    simpl in *; try discriminate; try lia.
  - destruct k; discriminate.
  - destruct m.
    + simpl in A. apply andb_prop in A as [Hw A].
      destruct k as [|k]; [exact Hw|]. apply (IH mask); trivial. lia.
    + destruct k as [|k]; [discriminate|]. apply (IH mask); trivial. lia.
Qed.

Lemma nth_map_lt {A B} (f : A -> B) (l : list A) (k : nat) (da : A) (db : B) :
  (k < length l)%nat -> nth k (map f l) db = f (nth k l da).
Proof.
  intros H. rewrite (nth_indep _ db (f da)) by now rewrite length_map.
  apply map_nth.
Qed.

Lemma select_all_false (within_tol mask : list bool) :
  length within_tol = length mask ->
  Np.all (Np.select within_tol mask) = false ->
  exists k, (k < length mask)%nat
            /\ nth k mask false = true /\ nth k within_tol false = false.
Proof.
  revert mask. induction within_tol as [|w r IH]; intros [|m mask] L A;
    simpl in *; try discriminate.
  destruct m.
  - simpl in A. destruct w.
    + simpl in A. destruct (IH mask) as [k [Hk [Hm Hw]]]; trivial; [lia|].
      exists (S k). repeat split; trivial. lia.
    + exists O. repeat split; trivial. lia.
  - destruct (IH mask) as [k [Hk [Hm Hw]]]; trivial; [lia|].
    exists (S k). repeat split; trivial. lia.
Qed.

Section SettleAt.

Variables (ts : list Q) (within_tol : list bool) (sd : Q) (i : nat).
Hypothesis L : length within_tol = length ts.

Local Abbreviation mask := (map (fun t' => Qgeb t' (nth i ts 0 + sd)) ts).

Lemma future_mask_length : length within_tol = length mask.
Proof. now rewrite length_map. Qed.

Lemma future_mask_nth (k : nat) :
  (k < length ts)%nat ->
  (nth k mask false = true <-> nth i ts 0 + sd <= nth k ts 0).
Proof.
  intros Hk. rewrite (nth_map_lt _ _ _ 0) by assumption.
  apply Qgeb_ge.
Qed.

(** The loop body returns only at an index that is [late_settled], and then
    the timestamp at that index. *)
Lemma settle_at_sound (t : Q) :
  settle_at ts within_tol sd i = Some t ->
  t = nth i ts 0 /\ late_settled ts within_tol sd i.
Proof.
  unfold settle_at, late_settled.
  destruct (nth i within_tol false) eqn:W; [|discriminate].
  destruct (Np.any mask) eqn:A; [|discriminate].
  destruct (Np.all (Np.select within_tol mask)) eqn:S'; [|discriminate].
  intros E. injection E as <-. repeat split; trivial.
  - unfold Np.any in A. apply existsb_exists in A as [b [Hb ->]].
    apply (In_nth _ _ false) in Hb as [k [Hk Hb]].
    rewrite <- future_mask_length, L in Hk. exists k. split; trivial.
    now apply future_mask_nth.
  - intros k Hk Hlate.
    apply (select_all_true within_tol mask);
      [apply future_mask_length | exact S' | now apply future_mask_nth].
Qed.

(** And it does return at every such index. *)
Lemma settle_at_complete :
  late_settled ts within_tol sd i ->
  settle_at ts within_tol sd i = Some (nth i ts 0).
Proof.
  unfold settle_at, late_settled.
  intros [W [[k [Hk Hlate]] Hall]]. rewrite W.
  assert (A : Np.any mask = true).
  { unfold Np.any. apply existsb_exists. exists true. split; trivial.
    apply future_mask_nth in Hlate; trivial. rewrite <- Hlate. apply nth_In.
    now rewrite <- future_mask_length, L. }
  rewrite A.
  destruct (Np.all (Np.select within_tol mask)) eqn:S'; trivial.
  exfalso.
  destruct (select_all_false _ _ future_mask_length S') as [k' [Hk' [Hm Hw]]].
  rewrite <- future_mask_length, L in Hk'.
  rewrite (Hall k' Hk') in Hw; [discriminate|].
  now apply future_mask_nth.
Qed.

End SettleAt.

(** The loop returns at the first index its body accepts. *)
Lemma settle_loop_first (ts : list Q) (within_tol : list bool) (sd : Q) (n : nat) :
  forall a,
    match settle_loop ts within_tol sd (seq a n) with
    | Some t =>
        exists i, (a <= i < a + n)%nat
                  /\ settle_at ts within_tol sd i = Some t
                  /\ forall j, (a <= j < i)%nat -> settle_at ts within_tol sd j = None
    | None =>
        forall j, (a <= j < a + n)%nat -> settle_at ts within_tol sd j = None
    end.
Proof.
  induction n as [|n IH]; intros a; cbn [seq settle_loop].
  - intros j Hj. lia.
  - destruct (settle_at ts within_tol sd a) as [t|] eqn:E.
    + exists a. split; [lia|]. split; [exact E|]. intros j Hj. lia.
    + specialize (IH (S a)).
      destruct (settle_loop ts within_tol sd (seq (S a) n)) as [t|].
      * destruct IH as [i [Hi [Ei Hbefore]]]. exists i.
        split; [lia|]. split; [exact Ei|]. intros j Hj.
        destruct (Nat.eq_dec j a) as [-> | Hne]; trivial. apply Hbefore. lia.
      * intros j Hj.
        destruct (Nat.eq_dec j a) as [-> | Hne]; trivial. apply IH. lia.
Qed.

(** What [_calculate_settling_time] computes: the timestamp of the first
    index that is [late_settled], [None] when there is none.  Samples less
    than [settle_duration] after a candidate play no part. *)
Lemma calculate_settling_time_spec (ts fe le re : list Q) (ftol ltol rtol sd : Q) :
  let within_tol := within_tolerance fe le re ftol ltol rtol in
  length within_tol = length ts ->
  match _calculate_settling_time ts fe le re ftol ltol rtol sd with
  | Some t =>
      exists i, (i < length ts)%nat /\ t = nth i ts 0
                /\ late_settled ts within_tol sd i
                /\ forall j, (j < i)%nat -> ~ late_settled ts within_tol sd j
  | None => forall j, (j < length ts)%nat -> ~ late_settled ts within_tol sd j
  end.
Proof.
  intros within_tol L. unfold _calculate_settling_time. fold within_tol.
  assert (Hnone : forall j, settle_at ts within_tol sd j = None ->
                            ~ late_settled ts within_tol sd j).
  { intros j E H. apply (settle_at_complete ts within_tol sd j L) in H.
    congruence. }
  destruct (Np.any within_tol) eqn:A; cbn [negb].
  - pose proof (settle_loop_first ts within_tol sd (length ts) 0) as F.
    destruct (settle_loop ts within_tol sd (seq 0 (length ts))) as [t|].
    + destruct F as [i [Hi [Ei Hbefore]]]. exists i.
      destruct (settle_at_sound ts within_tol sd i L t Ei) as [-> Hs].
      split; [lia|]. split; [reflexivity|]. split; [exact Hs|].
      intros j Hj. apply Hnone, Hbefore. lia.
    + intros j Hj. apply Hnone, F. lia.
  - intros j Hj [W _]. unfold Np.any in A.
    assert (T : existsb (fun b => b) within_tol = true).
    { apply existsb_exists. exists true. split; trivial.
      rewrite <- W. apply nth_In. now rewrite L. }
    congruence.
Qed.

(** C1, the code against the claim: timestamps 0, 0.2, 1.0 with the forward
    error back out of tolerance at 0.2 s.  The code returns 0 as the settling
    time, since the only sample it checks is the one at 1.0 s; the sample at
    0.2 s, inside the half second after the candidate, is out of tolerance,
    so the signals are not settled from index 0 on. *)
Theorem settling_time_skips_window :
  _calculate_settling_time [0; 0.2; 1.0] [0; 1; 0] [0; 0; 0] [0; 0; 0]
                           0.10 0.05 2.0 0.5
  = Some 0
  /\ within_tolerance [0; 1; 0] [0; 0; 0] [0; 0; 0] 0.10 0.05 2.0
     = [true; false; true]
  /\ ~ settled_from [true; false; true] 0
  /\ settled_from [true; false; true] 2.
Proof.
  split; [reflexivity|]. split; [reflexivity|]. split.
  - intros H. specialize (H 1%nat). simpl in H.
    assert (C : false = true) by (apply H; lia). discriminate.
  - intros k Hk. simpl in Hk.
    assert (k = 2%nat) by lia. subst k. reflexivity.
Qed.

(* ================================================================== *)
(** ** Summary statistics *)
(* ================================================================== *)

(** C5, the code against the claim: in the example log the second session
    is aligned at its first sample, so its alignment time is defined and
    equal to 0.  The comprehension [if s.metrics.alignment_time] tests the
    truth value and leaves that session out: one value is aggregated where
    two are defined, and the reported mean is 0.25 instead of 0.125. *)
Theorem summary_drops_zero_time :
  exists s1 s2,
    find_alignment_sessions example_log = Ok [s1; s2]
    /\ Forall2 Qeq (collect_defined (fun s => alignment_time (metrics s)) [s1; s2])
                   [0.25; 0]
    /\ Forall2 Qeq (alignment_times [s1; s2]) [0.25]
    /\ Np.mean (alignment_times [s1; s2]) == 0.25
    /\ Np.mean (collect_defined (fun s => alignment_time (metrics s)) [s1; s2])
       == 0.125
    /\ forall sqrt, exists sm m sd,
         summary sqrt [s1; s2] = Some sm
         /\ success_rate sm == 100
         /\ alignment_time_stats sm = Some (m, sd)
         /\ m == 0.25.
Proof.
  do 2 eexists. split; [vm_compute; reflexivity|].
  repeat split; try (vm_compute; repeat constructor).
  intros sqrt. do 3 eexists. split; [reflexivity|].
  split; [vm_compute; reflexivity|].
  split; [reflexivity|]. vm_compute. reflexivity.
Qed.

(** The comprehension keeps exactly the defined values that are not zero. *)
Lemma collect_truthy_filter (f : AlignmentSession -> option Q)
  (sessions : list AlignmentSession) :
  collect_truthy f sessions
  = filter (fun x => negb (Qeq_bool x 0)) (collect_defined f sessions).
Proof.
  induction sessions as [|s rest IH]; simpl; trivial.
  destruct (f s) as [x|]; simpl; trivial.
  destruct (negb (Qeq_bool x 0)); now rewrite IH.
Qed.

Lemma overshoot_formula_witness :
  _calculate_overshoot [0.0005; 0.2; -0.3] = 0
  /\ _calculate_overshoot [1.0; 0.5; -0.3; 0.1]
     == Qmax 0 (- Np.min [1.0; 0.5; -0.3; 0.1]) / nth 0 [1.0; 0.5; -0.3; 0.1] 0 * 100
  /\ _calculate_overshoot [-2; 0.5; 1; -0.1]
     == Qmax 0 (Np.max [-2; 0.5; 1; -0.1]) / Qabs (nth 0 [-2; 0.5; 1; -0.1] 0) * 100.
Proof.
  split; [|split].
  - apply (proj1 (overshoot_formula [0.0005; 0.2; -0.3])).
    right. reflexivity.
  - apply (proj1 (proj2 (overshoot_formula [1.0; 0.5; -0.3; 0.1]))).
    + intros [H | H]; [simpl in H; lia | vm_compute in H; discriminate].
    + reflexivity.
  - apply (proj1 (proj2 (overshoot_formula [-2; 0.5; 1; -0.1]))).
    + intros [H | H]; [simpl in H; lia | vm_compute in H; discriminate].
    + reflexivity.
Defined.

(* ================================================================== *)
(** ** Further properties of the resampler *)
(* ================================================================== *)

(** Resampling a list of samples onto the sample times themselves, for
    strictly increasing times, gives the values back. *)
Lemma interp_own_knots (ts vs : list Q) :
  ts <> [] -> length vs = length ts -> StronglySorted Qlt ts ->
  interp_to_common (NdArray ts) (NdArray vs) ts = Ok vs.
Proof.
  intros Hne Hl HS. unfold interp_to_common, len, elems. rewrite Hl.
  assert (Hlen : length ts <> O) by (destruct ts; simpl; congruence).
  apply Nat.eqb_neq in Hlen. rewrite Hlen. cbn [orb].
  unfold Np.interp. rewrite Hlen, Hl, Nat.eqb_refl. cbn [negb].
  f_equal. apply (nth_ext _ _ (Np.interp_at ts vs 0) 0).
  - now rewrite length_map.
  - intros i Hi. rewrite length_map in Hi.
    rewrite map_nth. now apply interp_at_knot.
Qed.

(** X1.  The resampler returns one value per destination timestamp and does
    not raise, for every pair of source arrays of one length; that is the
    case for what [get_values_in_range] returns for any entry, missing or
    not, so resampling a channel of the log never fails. *)
Theorem resample_length :
  (forall (t_src vals : arr Q) (t_dest : list Q),
      len t_src = len vals ->
      exists l, interp_to_common t_src vals t_dest = Ok l
                /\ length l = length t_dest)
  /\ (forall (t0 t1 : Q) (entry : option (channel Q)) (t_dest : list Q),
         exists l,
           interp_to_common (fst (get_values_in_range t0 t1 entry))
                            (snd (get_values_in_range t0 t1 entry)) t_dest
           = Ok l
           /\ length l = length t_dest).
Proof.
  split.
  - exact interp_to_common_ok.
  - intros t0 t1 entry t_dest. apply interp_to_common_ok, gvir_lengths.
Qed.

Lemma resample_length_witness :
  exists l,
    interp_to_common (NdArray [0; 1; 2]) (NdArray [1; 2; 4]) [0.5; 3] = Ok l
    /\ length l = 2%nat.
Proof.
  exact (proj1 resample_length (NdArray [0; 1; 2]) (NdArray [1; 2; 4])
           [0.5; 3] eq_refl).
Defined.

Lemma sorted_le_hd_last (l : list Q) :
  StronglySorted Qle l -> hd 0 l <= last l 0.
Proof.
  induction 1 as [|a r HS IH F]; [simpl; lra|].
  destruct r as [|b r']; [simpl; lra|].
  change (last (a :: b :: r') 0) with (last (b :: r') 0).
  apply Forall_inv in F. simpl in *. lra.
Qed.

(** X2.  Outside the time range of a non-empty source with non-decreasing
    timestamps the resampler extrapolates flat: a destination time before the
    first sample gets the first value, one after the last sample the last
    value. *)
Theorem resample_clamps (xp fp : list Q) (x : Q) :
  xp <> [] -> length fp = length xp -> StronglySorted Qle xp ->
  (x < hd 0 xp ->
   interp_to_common (NdArray xp) (NdArray fp) [x] = Ok [hd 0 fp])
  /\ (last xp 0 < x ->
      interp_to_common (NdArray xp) (NdArray fp) [x] = Ok [last fp 0]).
Proof.
  intros Hne Hl HS.
  assert (Hlen : Nat.eqb (length xp) 0 = false).
  { apply Nat.eqb_neq. destruct xp; simpl; congruence. }
  assert (E : interp_to_common (NdArray xp) (NdArray fp) [x]
              = Ok [Np.interp_at xp fp x]).
  { unfold interp_to_common, len, elems. rewrite Hl, Hlen. cbn [orb].
    unfold Np.interp. now rewrite Hlen, Hl, Nat.eqb_refl. }
  rewrite E. pose proof (sorted_le_hd_last xp HS) as Hhl.
  unfold Np.interp_at, Np.binary_search. split; intros Hx.
  - assert (A : Qltb x (hd 0 xp) = true) by now apply Qltb_lt.
    assert (B : Qgtb x (last xp 0) = false) by (apply Qgtb_le; lra).
    rewrite A, B. now destruct (Nat.eqb (length xp) 1).
  - assert (B : Qgtb x (last xp 0) = true) by now apply Qgtb_gt.
    rewrite B.
    destruct (Nat.eqb (length xp) 1) eqn:E1.
    + apply Nat.eqb_eq in E1.
      destruct xp as [|a [|b r]]; try discriminate. simpl in *.
      assert (A : Qltb x a = false) by (apply Qltb_ge; lra).
      now rewrite A, B.
    + destruct (Z.eqb_spec (Z.of_nat (length xp)) (-1)); [lia|].
      now rewrite Z.eqb_refl.
Qed.

Lemma resample_clamps_witness :
  interp_to_common (NdArray [1; 2; 2; 3]) (NdArray [10; 20; 30; 40]) [0.5]
  = Ok [hd 0 [10; 20; 30; 40]]
  /\ interp_to_common (NdArray [1; 2; 2; 3]) (NdArray [10; 20; 30; 40]) [7]
     = Ok [last [10; 20; 30; 40] 0].
Proof.
  assert (HS : StronglySorted Qle [1; 2; 2; 3])
    by (repeat (constructor; try (vm_compute; discriminate))).
  split.
  - apply (proj1 (resample_clamps [1; 2; 2; 3] [10; 20; 30; 40] 0.5
                    ltac:(discriminate) eq_refl HS)).
    reflexivity.
  - apply (proj2 (resample_clamps [1; 2; 2; 3] [10; 20; 30; 40] 7
                    ltac:(discriminate) eq_refl HS)).
    reflexivity.
Defined.

Lemma threshold_astype (flags : list bool) :
  threshold (map (fun b : bool => if b then 1 else 0) flags) = flags.
Proof.
  unfold threshold. rewrite map_map.
  induction flags as [|b r IH]; simpl; [trivial|].
  rewrite IH. now destruct b.
Qed.

(** X3.  A flag channel with strictly increasing timestamps survives the
    resampling chain [astype(float)], [np.interp], [> 0.5] onto its own
    timestamps unchanged. *)
Theorem flag_resample_round_trip (c : channel bool) :
  c <> [] ->
  StronglySorted Qlt (timestamps_of c) ->
  exists a l,
    astype_float (NdArray (values_of c)) = Ok a
    /\ interp_to_common (NdArray (timestamps_of c)) a (timestamps_of c) = Ok l
    /\ threshold l = values_of c.
Proof.
  intros Hne HS. eexists. eexists. split; [reflexivity|]. split.
  - apply interp_own_knots; trivial.
    + destruct c; simpl; congruence.
    + rewrite length_map. apply channel_lengths.
  - apply threshold_astype.
Qed.

Lemma flag_resample_round_trip_witness :
  exists a l,
    astype_float (NdArray (values_of [ (0, true); (0.5, false); (2, true) ])) = Ok a
    /\ interp_to_common
         (NdArray (timestamps_of [ (0, true); (0.5, false); (2, true) ])) a
         (timestamps_of [ (0, true); (0.5, false); (2, true) ])
       = Ok l
    /\ threshold l = values_of [ (0, true); (0.5, false); (2, true) ].
Proof.
  apply (flag_resample_round_trip [ (0, true); (0.5, false); (2, true) ]).
  - discriminate.
  - repeat constructor.
Defined.

(** The scan of [binary_search] brackets the key between two neighbouring
    sample points, whatever the order of the sample points. *)
Lemma scan_bracket (x : Q) (r : list Q) :
  forall a, a <= x ->
    (Np.scan x r <= length r)%nat
    /\ nth (Np.scan x r) (a :: r) 0 <= x
    /\ ((Np.scan x r < length r)%nat -> x < nth (S (Np.scan x r)) (a :: r) 0).
Proof.
  induction r as [|b r IH]; intros a Ha.
  - simpl. repeat split; [lia | exact Ha | lia].
  - cbn [Np.scan]. destruct (Qgeb x b) eqn:E; qcases.
    + destruct (IH b E) as [H1 [H2 H3]].
      repeat split; [simpl; lia | exact H2 |].
      intros Hlt. apply H3. simpl in Hlt. lia.
    + repeat split; [simpl; lia | exact Ha | intros _; exact E].
Qed.

Lemma in_last {A} (l : list A) (d : A) : l <> [] -> In (last l d) l.
Proof.
  induction l as [|a r IH]; [congruence|]. intros _.
  destruct r as [|b r']; [now left|].
  right. apply IH. discriminate.
Qed.

(** In exact arithmetic a linear interpolant between two bracketing sample
    points lies between the values stored there. *)
Lemma interp_at_bounded (xp fp : list Q) (lo hi x : Q) :
  xp <> [] -> length fp = length xp ->
  (forall v, In v fp -> lo <= v <= hi) ->
  lo <= Np.interp_at xp fp x <= hi.
Proof.
  intros Hne Hl Hb.
  assert (Hfp : fp <> []) by (destruct fp, xp; simpl in *; congruence).
  assert (Hhd : lo <= hd 0 fp <= hi).
  { apply Hb. destruct fp; [congruence | now left]. }
  assert (Hlast : lo <= last fp 0 <= hi) by (apply Hb; now apply in_last).
  unfold Np.interp_at.
  destruct (Nat.eqb (length xp) 1).
  { destruct (Qltb x (hd 0 xp)); [exact Hhd|].
    destruct (Qgtb x (hd 0 xp)); [exact Hlast | exact Hhd]. }
  unfold Np.binary_search.
  destruct (Qgtb x (last xp 0)).
  { destruct (Z.eqb_spec (Z.of_nat (length xp)) (-1)); [lia|].
    now rewrite Z.eqb_refl. }
  destruct (Qltb x (hd 0 xp)) eqn:Ehd.
  { now rewrite Z.eqb_refl. }
  destruct xp as [|a r]; [congruence|]. cbn [hd tl] in *. qcases.
  destruct (scan_bracket x r a Ehd) as [B1 [B2 B3]].
  set (j := Np.scan x r) in *.
  destruct (Z.eqb_spec (Z.of_nat j) (-1)); [lia|].
  cbn [length] in *.
  destruct (Z.eqb_spec (Z.of_nat j) (Z.of_nat (S (length r)))); [lia|].
  rewrite Nat2Z.id.
  assert (Hin : forall k, (k < S (length r))%nat -> lo <= nth k fp 0 <= hi).
  { intros k Hk. apply Hb, nth_In. lia. }
  destruct (Z.eqb_spec (Z.of_nat j) (Z.of_nat (S (length r)) - 1)).
  { apply Hin. lia. }
  assert (Hj : (j < length r)%nat) by lia.
  destruct (Qeq_bool (nth j (a :: r) 0) x) eqn:Eq.
  { apply Hin. lia. }
  apply Qeq_bool_neq in Eq. specialize (B3 Hj).
  destruct (Hin j ltac:(lia)) as [L0 U0].
  destruct (Hin (S j) ltac:(lia)) as [L1 U1].
  set (xj := nth j (a :: r) 0) in *. set (xk := nth (S j) (a :: r) 0) in *.
  set (fj := nth j fp 0) in *. set (fk := nth (S j) fp 0) in *.
  assert (Hlt : xj < x) by (destruct (Qlt_le_dec xj x); [assumption|];
    exfalso; apply Eq; lra).
  set (t := (x - xj) / (xk - xj)).
  assert (Ht0 : 0 <= t) by (apply Qle_shift_div_l; lra).
  assert (Ht1 : t <= 1) by (apply Qle_shift_div_r; lra).
  setoid_replace ((fk - fj) / (xk - xj) * (x - xj) + fj)
    with (fj + (fk - fj) * t) by (unfold t; field; lra).
  split; nra.
Qed.

(* ================================================================== *)
(** ** Further properties of the metrics *)
(* ================================================================== *)

Lemma diff_length (l : list Z) : length (Np.diff l) = (length l - 1)%nat.
Proof.
  induction l as [|a r IH]; [reflexivity|].
  destruct r as [|b r']; [reflexivity|].
  change (Np.diff (a :: b :: r')) with ((b - a)%Z :: Np.diff (b :: r')).
  cbn [length] in *. lia.
Qed.

Lemma diff_scale (k : Z) (l : list Z) :
  Np.diff (map (Z.mul k) l) = map (Z.mul k) (Np.diff l).
Proof.
  induction l as [|a r IH]; [reflexivity|].
  destruct r as [|b r']; [reflexivity|].
  change (Np.diff (map (Z.mul k) (a :: b :: r')))
    with ((k * b - k * a)%Z :: Np.diff (map (Z.mul k) (b :: r'))).
  rewrite IH.
  change (Np.diff (a :: b :: r')) with ((b - a)%Z :: Np.diff (b :: r')).
  cbn [map]. f_equal. lia.
Qed.

Lemma sign_scale (k x : Q) : Np.sign (k * x) = (Np.sign k * Np.sign x)%Z.
Proof. unfold Np.sign. simpl. apply Z.sgn_mul. Qed.

(** X5.  The oscillation count of a signal is at most the number of
    consecutive sample pairs, and rescaling the signal by any non-zero
    factor, a change of unit or of sign convention, leaves it unchanged. *)
Theorem zero_crossings_bound_and_scaling (signal : list Q) :
  (_count_zero_crossings signal <= length signal - 1)%nat
  /\ forall k : Q, ~ k == 0 ->
       _count_zero_crossings (map (Qmult k) signal) = _count_zero_crossings signal.
Proof.
  split.
  - unfold _count_zero_crossings.
    destruct (Nat.ltb (length signal) 2); [lia|].
    etransitivity; [apply filter_length_le|].
    now rewrite diff_length, length_map.
  - intros k Hk. unfold _count_zero_crossings. rewrite length_map.
    destruct (Nat.ltb (length signal) 2); [reflexivity|].
    assert (Hs : (Np.sign k <> 0)%Z).
    { unfold Np.sign. intros E. apply Z.sgn_null_iff in E. apply Hk.
      unfold Qeq. simpl. lia. }
    rewrite map_map.
    rewrite (map_ext _ (fun x => (Np.sign k * Np.sign x)%Z) (sign_scale k)).
    rewrite <- (map_map Np.sign (Z.mul (Np.sign k))), diff_scale.
    induction (Np.diff (map Np.sign signal)) as [|d r IH]; [reflexivity|].
    cbn [map filter].
    assert (E : (Np.sign k * d =? 0)%Z = (d =? 0)%Z).
    { destruct (Z.eqb_spec d 0) as [-> | Hd].
      - now rewrite Z.mul_0_r.
      - apply Z.eqb_neq. nia. }
    rewrite E. destruct (negb (d =? 0)%Z); cbn [length]; now rewrite IH.
Qed.

Lemma lost_pairs_spaced (has_target : list bool) :
  (2 * lost_pairs has_target
   + (if hd true has_target then 0 else 1) <= length has_target)%nat.
Proof.
  induction has_target as [|a r IH]; [simpl; lia|].
  destruct r as [|b r']; [destruct a; simpl; lia|].
  change (lost_pairs (a :: b :: r'))
    with ((if a && negb b then 1 else 0) + lost_pairs (b :: r'))%nat.
  cbn [hd length] in *. destruct a, b; simpl andb; cbn [negb]; lia.
Qed.

Lemma lost_pairs_absent (has_target : list bool) :
  (lost_pairs has_target <= length (filter negb (tl has_target)))%nat.
Proof.
  induction has_target as [|a r IH]; [simpl; lia|].
  destruct r as [|b r']; [simpl; lia|].
  change (lost_pairs (a :: b :: r'))
    with ((if a && negb b then 1 else 0) + lost_pairs (b :: r'))%nat.
  cbn [tl filter] in *. destruct a, b; cbn [andb negb length]; lia.
Qed.

(** X6.  Two target losses never share a sample: a loss needs a sample with
    the target followed by one without, so twice the loss count is at most
    the number of samples, and the count is at most the number of samples
    without target. *)
Theorem target_losses_bound (has_target : list bool) :
  (2 * _count_target_losses has_target <= length has_target)%nat
  /\ (_count_target_losses has_target
      <= length (filter negb has_target))%nat.
Proof.
  unfold _count_target_losses. split.
  - destruct (Nat.ltb (length has_target) 2); [lia|].
    pose proof (lost_pairs_spaced has_target). lia.
  - destruct (Nat.ltb (length has_target) 2); [lia|].
    etransitivity; [apply lost_pairs_absent|].
    destruct has_target as [|a r]; [simpl; lia|].
    cbn [tl filter]. destruct (negb a); cbn [length]; lia.
Qed.

(** X7.  The overshoot is never negative, and it is 0 for a signal that
    never changes side: all samples non-negative, or all non-positive. *)
Theorem overshoot_sign (e : list Q) :
  0 <= _calculate_overshoot e
  /\ ((forall x, In x e -> 0 <= x) \/ (forall x, In x e -> x <= 0) ->
      _calculate_overshoot e = 0).
Proof.
  assert (Habs : forall x, 0 <= Qabs x * 100).
  { intros x. pose proof (Qabs_nonneg x). lra. }
  split.
  - unfold _calculate_overshoot.
    repeat match goal with
           | |- context [if ?c then _ else _] => destruct c
           end; try apply Habs; lra.
  - intros Hside. unfold _calculate_overshoot.
    destruct (Nat.ltb (length e) 2) eqn:Hlen; [reflexivity|].
    apply Nat.ltb_ge in Hlen.
    assert (Hne : e <> []) by (destruct e; simpl in *; [lia | discriminate]).
    assert (H0 : In (nth 0 e 0) e) by (apply nth_In; lia).
    destruct (Qltb (Qabs (nth 0 e 0)) 0.001) eqn:Hsmall; [reflexivity|].
    destruct (np_min_spec e Hne) as [_ [xm [Hxm Em]]].
    destruct (np_max_spec e Hne) as [_ [xM [HxM EM]]].
    qcases. destruct Hside as [Hpos | Hneg].
    + destruct (Qgtb (nth 0 e 0) 0) eqn:Hg; qcases.
      * assert (E : Qltb (Np.min e) 0 = false).
        { apply Qltb_ge. rewrite Em. now apply Hpos. }
        now rewrite E.
      * exfalso. specialize (Hpos _ H0).
        rewrite Qabs_pos in Hsmall by assumption. lra.
    + destruct (Qgtb (nth 0 e 0) 0) eqn:Hg; qcases.
      * exfalso. specialize (Hneg _ H0). lra.
      * assert (E : Qgtb (Np.max e) 0 = false).
        { apply Qgtb_le. rewrite EM. now apply Hneg. }
        now rewrite E.
Qed.

Lemma overshoot_sign_witness :
  _calculate_overshoot [1; 0.5; 0.2; 0] = 0.
Proof.
  apply (proj2 (overshoot_sign [1; 0.5; 0.2; 0])). left.
  intros x [<- | [<- | [<- | [<- | []]]]]; discriminate.
Defined.

(** X8.  The peak error (the maximum of the absolute values, which involves
    no arithmetic) bounds the magnitude of every sample of the array, it is
    the magnitude of one of the samples when the array is not empty, and it
    is 0 for the empty array. *)
Theorem peak_bounds_every_sample (e : list Q) :
  (forall x, In x e -> Qabs x <= max_abs e)
  /\ (e <> [] -> exists x, In x e /\ max_abs e == Qabs x)
  /\ (e = [] -> max_abs e = 0).
Proof.
  split; [|split].
  - unfold max_abs. destruct e as [|a r]; [intros x []|].
    set (e := a :: r). change (Nat.ltb 0 (length e)) with true. cbn iota.
    assert (Hne : map Qabs e <> []) by discriminate.
    destruct (np_max_spec (map Qabs e) Hne) as [Hub _].
    intros x Hx. apply Hub. now apply in_map.
  - intros Hne. unfold max_abs. destruct e as [|a r]; [congruence|].
    set (e := a :: r). change (Nat.ltb 0 (length e)) with true. cbn iota.
    assert (Hm : map Qabs e <> []) by discriminate.
    destruct (np_max_spec (map Qabs e) Hm) as [_ [v [Hv Ev]]].
    apply in_map_iff in Hv as [x [<- Hx]]. now exists x.
  - intros ->. reflexivity.
Qed.

Lemma where_from_first (flags : list bool) :
  forall k,
    match Np.where_from k flags with
    | i :: _ =>
        (k <= i)%nat /\ nth (i - k) flags false = true
        /\ forall j, (j < i - k)%nat -> nth j flags false = false
    | [] => Np.any flags = false
    end.
Proof.
  induction flags as [|b r IH]; intros k; [reflexivity|].
  cbn [Np.where_from]. destruct b.
  - rewrite Nat.sub_diag. repeat split; [lia|]. intros j Hj. lia.
  - specialize (IH (S k)). destruct (Np.where_from (S k) r) as [|i rest].
    + exact IH.
    + destruct IH as [H1 [H2 H3]]. split; [lia|].
      replace (i - k)%nat with (S (i - S k)) by lia. split; [exact H2|].
      intros [|j] Hj; [reflexivity|]. apply H3. lia.
Qed.

(** Success, alignment time and the first aligned sample. *)
Lemma alignment_time_core
  (ts fe le re fs ls rs : list Q) (ht af : list bool) (m : AlignmentMetrics) :
  _calculate_metrics ts fe le re fs ls rs ht af = Ok m ->
  (success m = true <-> exists i, nth i af false = true)
  /\ (alignment_time m = None <-> success m = false)
  /\ (forall t, alignment_time m = Some t ->
        exists i, nth_error ts i = Some t
                  /\ nth i af false = true
                  /\ forall j, (j < i)%nat -> nth j af false = false).
Proof.
  unfold _calculate_metrics. intros E.
  pose proof (where_from_first af 0) as W. fold (Np.where_ af) in W.
  assert (Hany : Np.any af = true <-> exists i, nth i af false = true).
  { unfold Np.any. rewrite existsb_exists. split.
    - intros [b [Hb ->]]. apply (In_nth _ _ false) in Hb as [i [_ Hi]]. now exists i.
    - intros [i Hi]. exists true. split; trivial. rewrite <- Hi.
      apply nth_In. destruct (Nat.lt_ge_cases i (length af)); trivial.
      rewrite nth_overflow in Hi by assumption. discriminate. }
  destruct (Np.any af) eqn:A.
  - destruct (Np.where_ af) as [|i rest]; [discriminate|].
    destruct W as [_ [W1 W2]]. rewrite Nat.sub_0_r in W1, W2.
    unfold index in E. destruct (nth_error ts i) as [t|] eqn:N; [|discriminate].
    cbn [bind] in E. injection E as <-. cbn [success alignment_time].
    split; [exact Hany|]. split; [split; discriminate|].
    intros t' Ht. injection Ht as <-. now exists i.
  - cbn [bind] in E. injection E as <-. cbn [success alignment_time].
    split; [exact Hany|]. split; [tauto|]. discriminate.
Qed.

(** X9.  In the metrics of a session the alignment time is defined exactly
    when the session is a success, and then it is the timestamp of the first
    sample whose aligned flag is set. *)
Theorem alignment_time_first_aligned
  (ts fe le re fs ls rs : list Q) (ht af : list bool) (m : AlignmentMetrics) :
  _calculate_metrics ts fe le re fs ls rs ht af = Ok m ->
  (success m = true <-> exists i, nth i af false = true)
  /\ (alignment_time m = None <-> success m = false)
  /\ (forall t, alignment_time m = Some t ->
        exists i, nth_error ts i = Some t
                  /\ nth i af false = true
                  /\ forall j, (j < i)%nat -> nth j af false = false).
Proof. exact (alignment_time_core ts fe le re fs ls rs ht af m). Qed.

Lemma alignment_time_first_aligned_witness :
  exists m,
    _calculate_metrics [0; 0.1; 0.2] [1; 0; 0] [0; 0; 0] [0; 0; 0]
                       [0; 0; 0] [0; 0; 0] [0; 0; 0]
                       [true; true; true] [false; true; true] = Ok m
    /\ (alignment_time m = None <-> success m = false).
Proof.
  eexists. split; [vm_compute; reflexivity|].
  match goal with
  | |- alignment_time ?m = None <-> _ =>
      refine (proj1 (proj2 (alignment_time_first_aligned
                              [0; 0.1; 0.2] [1; 0; 0] [0; 0; 0] [0; 0; 0]
                              [0; 0; 0] [0; 0; 0] [0; 0; 0]
                              [true; true; true] [false; true; true] m _)))
  end.
  vm_compute. reflexivity.
Defined.

Lemma peak_bounds_every_sample_witness :
  Qabs (-3) <= max_abs [1; -3; 2]
  /\ exists x, In x [1; -3; 2] /\ max_abs [1; -3; 2] == Qabs x.
Proof.
  split.
  - apply (proj1 (peak_bounds_every_sample [1; -3; 2])).
    right. left. reflexivity.
  - apply (proj1 (proj2 (peak_bounds_every_sample [1; -3; 2]))).
    discriminate.
Defined.

Lemma zero_crossings_bound_and_scaling_witness :
  _count_zero_crossings (map (Qmult (-2)) [1; -1; 0; 3])
  = _count_zero_crossings [1; -1; 0; 3].
Proof.
  apply (proj2 (zero_crossings_bound_and_scaling [1; -1; 0; 3])).
  discriminate.
Defined.

(** Each field of the metrics record is the helper applied to its array. *)
Lemma calculate_metrics_fields
  (ts fe le re fs ls rs : list Q) (ht af : list bool) (m : AlignmentMetrics) :
  _calculate_metrics ts fe le re fs ls rs ht af = Ok m ->
  settling_time m = _calculate_settling_time ts fe le re 0.10 0.05 2.0 0.5
  /\ final_forward_error m = final_error fe
  /\ final_lateral_error m = final_error le
  /\ final_rotation_error m = final_error re
  /\ max_forward_error m = max_abs fe
  /\ max_lateral_error m = max_abs le
  /\ max_rotation_error m = max_abs re
  /\ forward_overshoot m = _calculate_overshoot fe
  /\ lateral_overshoot m = _calculate_overshoot le
  /\ rotation_overshoot m = _calculate_overshoot re
  /\ forward_oscillations m = _count_zero_crossings fe
  /\ lateral_oscillations m = _count_zero_crossings le
  /\ rotation_oscillations m = _count_zero_crossings re
  /\ avg_forward_speed m = mean_abs fs
  /\ avg_lateral_speed m = mean_abs ls
  /\ avg_rotation_speed m = mean_abs rs
  /\ target_lost_count m = _count_target_losses ht.
Proof.
  unfold _calculate_metrics. intros E.
  destruct (if Np.any af then _ else _) as [at_|err]; [|discriminate].
  cbn [bind] in E. injection E as <-. cbn. tauto.
Qed.

(** When no sample lies [settle_duration] after another, no index is
    accepted. *)
Lemma settling_none_when_short (ts fe le re : list Q) (ftol ltol rtol sd : Q) :
  (forall a b, In a ts -> In b ts -> b < a + sd) ->
  _calculate_settling_time ts fe le re ftol ltol rtol sd = None.
Proof.
  intros Hspan. unfold _calculate_settling_time.
  destruct (negb _); [reflexivity|].
  set (w := within_tolerance fe le re ftol ltol rtol).
  assert (Hat : forall i, (i < length ts)%nat -> settle_at ts w sd i = None).
  { intros i Hi. unfold settle_at. destruct (nth i w false); [|reflexivity].
    assert (A : Np.any (map (fun t => Qgeb t (nth i ts 0 + sd)) ts) = false).
    { unfold Np.any. apply not_true_is_false. intros C.
      apply existsb_exists in C as [b [Hb ->]].
      apply in_map_iff in Hb as [t [Ht Hin]]. qcases.
      specialize (Hspan (nth i ts 0) t (nth_In _ _ Hi) Hin). lra. }
    now rewrite A. }
  assert (Hloop : forall idx, (forall i, In i idx -> (i < length ts)%nat) ->
                              settle_loop ts w sd idx = None).
  { induction idx as [|i rest IH]; intros Hidx; [reflexivity|].
    cbn [settle_loop]. rewrite (Hat i (Hidx i (or_introl eq_refl))).
    apply IH. intros j Hj. apply Hidx. now right. }
  apply Hloop. intros i Hi. apply in_seq in Hi. lia.
Qed.

(* ================================================================== *)
(** ** Further properties of session extraction *)
(* ================================================================== *)

Section ExtractionArrays.

Variables (d : LogData) (start_idx end_idx : nat).
Variables (st : channel string) (t0 t1 : Q).
Hypothesis Hstatus : status d = Some st.
Hypothesis Hstart : nth_error (timestamps_of st) start_idx = Some t0.
Hypothesis Hend : nth_error (timestamps_of st) end_idx = Some t1.

Local Abbreviation window entry := (get_values_in_range t0 t1 entry).

(** The arrays of a kept session are the resampled channels. *)
Lemma extract_kept_arrays (ref : list Q) (c c' : channel bool) :
  0.1 <= t1 - t0 ->
  reference_timestamps (fst (window (forward_error d)))
                       (fst (window (rotation_error d))) = Some ref ->
  vision_has_target d = Some c -> fully_aligned d = Some c' ->
  exists sess,
    _extract_session d start_idx end_idx = Ok (Some sess)
    /\ interp_to_common (fst (window (forward_error d)))
                        (snd (window (forward_error d))) ref
       = Ok (s_forward_error sess)
    /\ interp_to_common (fst (window (lateral_error d)))
                        (snd (window (lateral_error d))) ref
       = Ok (s_lateral_error sess)
    /\ interp_to_common (fst (window (rotation_error d)))
                        (snd (window (rotation_error d))) ref
       = Ok (s_rotation_error sess)
    /\ interp_to_common (fst (window (forward_speed d)))
                        (snd (window (forward_speed d))) ref
       = Ok (s_forward_speed sess)
    /\ interp_to_common (fst (window (lateral_speed d)))
                        (snd (window (lateral_speed d))) ref
       = Ok (s_lateral_speed sess)
    /\ interp_to_common (fst (window (rotation_speed d)))
                        (snd (window (rotation_speed d))) ref
       = Ok (s_rotation_speed sess)
    /\ (exists a l,
           astype_float (snd (window (Some c))) = Ok a
           /\ interp_to_common (fst (window (Some c))) a ref = Ok l
           /\ has_target sess = threshold l)
    /\ (exists a l,
           astype_float (snd (window (Some c'))) = Ok a
           /\ interp_to_common (fst (window (Some c'))) a ref = Ok l
           /\ aligned_flags sess = threshold l).
Proof.
  intros H R Hv Ha.
  unfold _extract_session. rewrite Hstatus. cbn [bind].
  rewrite (proj2 (index_Ok _ _ _) Hstart), (proj2 (index_Ok _ _ _) Hend).
  cbn [bind]. apply Qltb_ge in H. rewrite H. revert R. rewrite Hv, Ha.
  stream E1 L1. stream E2 L2. stream E3 L3. stream E4 L4.
  stream E5 L5. stream E6 L6. stream E7 L7. stream E8 L8.
  cbn [fst snd]. intros R. rewrite R.
  resample F1 M1. resample F2 M2. resample F3 M3.
  resample F4 M4. resample F5 M5. resample F6 M6.
  destruct (astype_present _ _ _ _ _ E7) as [arr7 [A7 LA7]]. rewrite A7. cbn [bind].
  resample F7 M7.
  destruct (astype_present _ _ _ _ _ E8) as [arr8 [A8 LA8]]. rewrite A8. cbn [bind].
  resample F8 M8.
  match goal with
  | |- context [_calculate_metrics ?ts ?a1 ?a2 ?a3 ?a4 ?a5 ?a6 ?ht ?af] =>
      destruct (calculate_metrics_ok ts a1 a2 a3 a4 a5 a6 ht af) as [m Hm]
  end.
  { unfold threshold. rewrite !length_map. lia. }
  rewrite Hm. cbn [bind]. eexists. split; [reflexivity|].
  cbn [s_forward_error s_lateral_error s_rotation_error s_forward_speed
       s_lateral_speed s_rotation_speed has_target aligned_flags].
  repeat split; trivial.
  - exists arr7. eexists. repeat split; trivial.
  - exists arr8. eexists. repeat split; trivial.
Qed.

(** A session comes out of [_extract_session] only on the path that needs
    both flag channels. *)
Lemma extract_some_path (sess : AlignmentSession) :
  _extract_session d start_idx end_idx = Ok (Some sess) ->
  exists ref c c',
    0.1 <= t1 - t0
    /\ reference_timestamps (fst (window (forward_error d)))
                            (fst (window (rotation_error d))) = Some ref
    /\ vision_has_target d = Some c /\ fully_aligned d = Some c'.
Proof.
  intros E.
  destruct (Qlt_le_dec (t1 - t0) 0.1) as [Hs | Hd].
  { rewrite (extract_short d _ _ st t0 t1 Hstatus Hstart Hend Hs) in E.
    discriminate. }
  destruct (reference_timestamps _ _) as [ref|] eqn:R.
  2:{ rewrite (extract_no_reference d _ _ st t0 t1 Hstatus Hstart Hend Hd R) in E.
      discriminate. }
  destruct (vision_has_target d) as [c|] eqn:Hv.
  2:{ rewrite (extract_without_target d _ _ st t0 t1 Hstatus Hstart Hend
                 ref Hd R Hv) in E. discriminate. }
  destruct (fully_aligned d) as [c'|] eqn:Ha.
  2:{ rewrite (extract_without_aligned d _ _ st t0 t1 Hstatus Hstart Hend
                 ref c Hd R Hv Ha) in E. discriminate. }
  now exists ref, c, c'.
Qed.

End ExtractionArrays.

(** Everything the extraction path tells about a session it returned. *)
Lemma session_inv (d : LogData) (start_idx end_idx : nat) (sess : AlignmentSession) :
  _extract_session d start_idx end_idx = Ok (Some sess) ->
  exists st t0 t1 ref c c',
    status d = Some st
    /\ nth_error (timestamps_of st) start_idx = Some t0
    /\ nth_error (timestamps_of st) end_idx = Some t1
    /\ 0.1 <= t1 - t0
    /\ reference_timestamps
         (fst (get_values_in_range t0 t1 (forward_error d)))
         (fst (get_values_in_range t0 t1 (rotation_error d))) = Some ref
    /\ vision_has_target d = Some c /\ fully_aligned d = Some c'
    /\ (start_time sess = t0 /\ end_time sess = t1
        /\ duration sess = t1 - t0
        /\ timestamps sess = map (fun t => t - t0) ref
        /\ length (s_forward_error sess) = length ref
        /\ length (s_lateral_error sess) = length ref
        /\ length (s_rotation_error sess) = length ref
        /\ length (s_forward_speed sess) = length ref
        /\ length (s_lateral_speed sess) = length ref
        /\ length (s_rotation_speed sess) = length ref
        /\ length (has_target sess) = length ref
        /\ length (aligned_flags sess) = length ref
        /\ _calculate_metrics (timestamps sess)
             (s_forward_error sess) (s_lateral_error sess) (s_rotation_error sess)
             (s_forward_speed sess) (s_lateral_speed sess) (s_rotation_speed sess)
             (has_target sess) (aligned_flags sess)
           = Ok (metrics sess))
    /\ (interp_to_common (fst (get_values_in_range t0 t1 (forward_error d)))
                         (snd (get_values_in_range t0 t1 (forward_error d))) ref
        = Ok (s_forward_error sess)
        /\ interp_to_common (fst (get_values_in_range t0 t1 (lateral_error d)))
                            (snd (get_values_in_range t0 t1 (lateral_error d))) ref
           = Ok (s_lateral_error sess)
        /\ interp_to_common (fst (get_values_in_range t0 t1 (rotation_error d)))
                            (snd (get_values_in_range t0 t1 (rotation_error d))) ref
           = Ok (s_rotation_error sess)
        /\ interp_to_common (fst (get_values_in_range t0 t1 (forward_speed d)))
                            (snd (get_values_in_range t0 t1 (forward_speed d))) ref
           = Ok (s_forward_speed sess)
        /\ interp_to_common (fst (get_values_in_range t0 t1 (lateral_speed d)))
                            (snd (get_values_in_range t0 t1 (lateral_speed d))) ref
           = Ok (s_lateral_speed sess)
        /\ interp_to_common (fst (get_values_in_range t0 t1 (rotation_speed d)))
                            (snd (get_values_in_range t0 t1 (rotation_speed d))) ref
           = Ok (s_rotation_speed sess)).
Proof.
  intros E.
  destruct (extract_some_status _ _ _ _ E) as [st [t0 [t1 [Hs [N0 N1]]]]].
  destruct (extract_some_path d _ _ st t0 t1 Hs N0 N1 sess E)
    as [ref [c [c' [Hd [R [Hv Ha]]]]]].
  exists st, t0, t1, ref, c, c'.
  destruct (extract_kept d _ _ st t0 t1 Hs N0 N1 ref c c' Hd R Hv Ha)
    as [s1 [E1 P1]].
  destruct (extract_kept_arrays d _ _ st t0 t1 Hs N0 N1 ref c c' Hd R Hv Ha)
    as [s2 [E2 P2]].
  rewrite E in E1, E2. injection E1 as <-. injection E2 as <-.
  split; [exact Hs|]. split; [exact N0|]. split; [exact N1|].
  split; [exact Hd|]. split; [exact R|]. split; [exact Hv|].
  split; [exact Ha|]. split; [exact P1|]. tauto.
Qed.

Lemma reference_nonempty (a b : arr Q) (ref : list Q) :
  reference_timestamps a b = Some ref -> ref <> [].
Proof.
  rewrite reference_cases. intros R ->.
  destruct (elems a); [destruct (elems b)|]; discriminate.
Qed.

(** X10.  Every array of an extracted session (the six signals and the two
    flags) has exactly one entry per session timestamp, and a session has at
    least one timestamp. *)
Theorem session_arrays_aligned (d : LogData) (start_idx end_idx : nat)
  (sess : AlignmentSession) :
  _extract_session d start_idx end_idx = Ok (Some sess) ->
  timestamps sess <> []
  /\ length (s_forward_error sess) = length (timestamps sess)
  /\ length (s_lateral_error sess) = length (timestamps sess)
  /\ length (s_rotation_error sess) = length (timestamps sess)
  /\ length (s_forward_speed sess) = length (timestamps sess)
  /\ length (s_lateral_speed sess) = length (timestamps sess)
  /\ length (s_rotation_speed sess) = length (timestamps sess)
  /\ length (has_target sess) = length (timestamps sess)
  /\ length (aligned_flags sess) = length (timestamps sess).
Proof.
  intros E.
  destruct (session_inv _ _ _ _ E)
    as [st [t0 [t1 [ref [c [c' [_ [_ [_ [_ [R [_ [_ [P _]]]]]]]]]]]]]].
  destruct P as [_ [_ [_ [T P]]]]. rewrite T, length_map.
  split; [|tauto].
  pose proof (reference_nonempty _ _ _ R). destruct ref; simpl; congruence.
Qed.

Lemma session_arrays_aligned_witness :
  exists sess,
    _extract_session example_log 1 3 = Ok (Some sess)
    /\ length (aligned_flags sess) = length (timestamps sess).
Proof.
  eexists. split; [vm_compute; reflexivity|].
  match goal with
  | |- length (aligned_flags ?s) = _ =>
      refine (proj2 (proj2 (proj2 (proj2 (proj2 (proj2 (proj2 (proj2
                (session_arrays_aligned example_log 1 3 s _)))))))))
  end.
  vm_compute. reflexivity.
Defined.

Lemma session_times_in_window (d : LogData) (start_idx end_idx : nat)
  (sess : AlignmentSession) :
  _extract_session d start_idx end_idx = Ok (Some sess) ->
  forall t, In t (timestamps sess) -> 0 <= t <= duration sess.
Proof.
  intros E t Ht.
  destruct (session_inv _ _ _ _ E)
    as [st [t0 [t1 [ref [c [c' [_ [_ [_ [_ [R [_ [_ [P _]]]]]]]]]]]]]].
  destruct P as [_ [_ [D [T _]]]]. rewrite T in Ht. rewrite D.
  apply in_map_iff in Ht as [x [<- Hx]].
  assert (t0 <= x <= t1); [|lra].
  rewrite reference_cases in R.
  destruct (elems (fst (get_values_in_range t0 t1 (forward_error d)))) eqn:Ef.
  - destruct (elems (fst (get_values_in_range t0 t1 (rotation_error d)))) eqn:Er;
      [discriminate|].
    injection R as <-. rewrite <- Er in Hx. exact (gvir_in_range _ _ _ _ Hx).
  - injection R as <-. rewrite <- Ef in Hx. exact (gvir_in_range _ _ _ _ Hx).
Qed.

(** X11.  A session that lasts less than half a second never has a settling
    time: no sample lies 0.5 s after another one. *)
Theorem short_session_never_settles (d : LogData) (start_idx end_idx : nat)
  (sess : AlignmentSession) :
  _extract_session d start_idx end_idx = Ok (Some sess) ->
  duration sess < 0.5 ->
  settling_time (metrics sess) = None.
Proof.
  intros E Hshort.
  destruct (session_inv _ _ _ _ E)
    as [st [t0 [t1 [ref [c [c' [_ [_ [_ [_ [_ [_ [_ [P _]]]]]]]]]]]]]].
  assert (M : _calculate_metrics (timestamps sess)
             (s_forward_error sess) (s_lateral_error sess) (s_rotation_error sess)
             (s_forward_speed sess) (s_lateral_speed sess) (s_rotation_speed sess)
             (has_target sess) (aligned_flags sess)
           = Ok (metrics sess)) by tauto.
  destruct (calculate_metrics_fields _ _ _ _ _ _ _ _ _ _ M) as [-> _].
  apply settling_none_when_short. intros a b Ha Hb.
  pose proof (session_times_in_window _ _ _ _ E a Ha).
  pose proof (session_times_in_window _ _ _ _ E b Hb). lra.
Qed.

Lemma short_session_never_settles_witness :
  exists sess,
    _extract_session example_log 1 3 = Ok (Some sess)
    /\ settling_time (metrics sess) = None.
Proof.
  eexists. split; [vm_compute; reflexivity|].
  match goal with
  | |- settling_time (metrics ?s) = None =>
      apply (short_session_never_settles example_log 1 3 s)
  end.
  - vm_compute. reflexivity.
  - reflexivity.
Defined.

Lemma zeros_like_repeat (t : list Q) : Np.zeros_like t = repeat 0 (length t).
Proof.
  unfold Np.zeros_like. induction t as [|a r IH]; simpl; [trivial|].
  now rewrite IH.
Qed.

Lemma fold_max_zeros (n : nat) : fold_left Qmax (repeat 0 n) 0 = 0.
Proof. induction n as [|n IH]; simpl; [trivial | exact IH]. Qed.

Lemma fold_plus_zeros (n : nat) : fold_left Qplus (repeat 0 n) 0 = 0.
Proof. induction n as [|n IH]; simpl; [trivial | exact IH]. Qed.

Lemma map_repeat {A B} (f : A -> B) (a : A) (n : nat) :
  map f (repeat a n) = repeat (f a) n.
Proof. induction n as [|n IH]; simpl; [trivial | now rewrite IH]. Qed.

Lemma diff_zeros (n : nat) : Np.diff (repeat 0%Z n) = repeat 0%Z (n - 1).
Proof.
  induction n as [|n IH]; [reflexivity|].
  destruct n as [|n]; [reflexivity|].
  change (Np.diff (repeat 0%Z (S (S n))))
    with ((0 - 0)%Z :: Np.diff (repeat 0%Z (S n))).
  rewrite IH. simpl. now rewrite Nat.sub_0_r.
Qed.

Lemma last_zeros (n : nat) : last (repeat 0 n) 0 = 0.
Proof.
  induction n as [|n IH]; [reflexivity|].
  destruct n; [reflexivity | exact IH].
Qed.

(** The metrics of an all-zero signal with at least one sample. *)
Lemma neutral_metrics (n : nat) :
  (0 < n)%nat ->
  final_error (repeat 0 n) = Some 0
  /\ max_abs (repeat 0 n) = 0
  /\ _calculate_overshoot (repeat 0 n) = 0
  /\ _count_zero_crossings (repeat 0 n) = O
  /\ mean_abs (repeat 0 n) == 0.
Proof.
  intros Hn. destruct n as [|n]; [lia|].
  assert (Hlen : Nat.ltb 0 (length (repeat 0 (S n))) = true)
    by (rewrite repeat_length; reflexivity).
  repeat split.
  - unfold final_error. now rewrite Hlen, last_zeros.
  - unfold max_abs. rewrite Hlen, map_repeat. apply (fold_max_zeros n).
  - unfold _calculate_overshoot.
    destruct (Nat.ltb (length (repeat 0 (S n))) 2); reflexivity.
  - unfold _count_zero_crossings.
    destruct (Nat.ltb (length (repeat 0 (S n))) 2); [reflexivity|].
    rewrite map_repeat. change (Np.sign 0) with 0%Z. rewrite diff_zeros.
    induction (S n - 1)%nat as [|k IH]; [reflexivity | exact IH].
  - unfold mean_abs. rewrite Hlen, map_repeat. unfold Np.mean, Np.sum.
    change (Qabs 0) with 0. rewrite fold_plus_zeros.
    unfold Qdiv. apply Qmult_0_l.
Qed.

(** A missing numeric channel gives an all-zero array with neutral
    metrics. *)
Lemma session_zero_channels (d : LogData) (start_idx end_idx : nat)
  (sess : AlignmentSession) :
  _extract_session d start_idx end_idx = Ok (Some sess) ->
  let n := length (timestamps sess) in
  let m := metrics sess in
  (forward_error d = None ->
   s_forward_error sess = repeat 0 n
   /\ final_forward_error m = Some 0 /\ max_forward_error m = 0
   /\ forward_overshoot m = 0 /\ forward_oscillations m = O)
  /\ (lateral_error d = None ->
      s_lateral_error sess = repeat 0 n
      /\ final_lateral_error m = Some 0 /\ max_lateral_error m = 0
      /\ lateral_overshoot m = 0 /\ lateral_oscillations m = O)
  /\ (rotation_error d = None ->
      s_rotation_error sess = repeat 0 n
      /\ final_rotation_error m = Some 0 /\ max_rotation_error m = 0
      /\ rotation_overshoot m = 0 /\ rotation_oscillations m = O)
  /\ (forward_speed d = None ->
      s_forward_speed sess = repeat 0 n /\ avg_forward_speed m == 0)
  /\ (lateral_speed d = None ->
      s_lateral_speed sess = repeat 0 n /\ avg_lateral_speed m == 0)
  /\ (rotation_speed d = None ->
      s_rotation_speed sess = repeat 0 n /\ avg_rotation_speed m == 0).
Proof.
  intros E n m.
  destruct (session_inv _ _ _ _ E)
    as [st [t0 [t1 [ref [c [c' [_ [_ [_ [_ [R [_ [_ [P Q]]]]]]]]]]]]]].
  destruct P as [_ [_ [_ [T [_ [_ [_ [_ [_ [_ [_ [_ M]]]]]]]]]]]].
  assert (Hn : n = length ref) by (unfold n; now rewrite T, length_map).
  assert (Hpos : (0 < n)%nat).
  { rewrite Hn. pose proof (reference_nonempty _ _ _ R).
    destruct ref; simpl; [congruence | lia]. }
  destruct (neutral_metrics n Hpos) as [Z1 [Z2 [Z3 [Z4 Z5]]]].
  destruct (calculate_metrics_fields _ _ _ _ _ _ _ _ _ _ M)
    as [_ [F1 [F2 [F3 [F4 [F5 [F6 [F7 [F8 [F9 [F10 [F11 [F12 [F13 [F14 [F15 _]]]]]]]]]]]]]]]].
  fold m in F1, F2, F3, F4, F5, F6, F7, F8, F9, F10, F11, F12, F13, F14, F15.
  destruct Q as [Q1 [Q2 [Q3 [Q4 [Q5 Q6]]]]].
  assert (Hz : forall entry s,
             entry = None ->
             interp_to_common (fst (get_values_in_range t0 t1 entry))
                              (snd (get_values_in_range t0 t1 entry)) ref = Ok s ->
             s = repeat 0 n).
  { intros entry s -> I. rewrite interp_to_common_absent in I.
    injection I as <-. fold (Np.zeros_like ref).
    now rewrite zeros_like_repeat, Hn. }
  split; [|split; [|split; [|split; [|split]]]]; intros Habs.
  - rewrite (Hz _ _ Habs Q1) in *. rewrite F1, F4, F7, F10. tauto.
  - rewrite (Hz _ _ Habs Q2) in *. rewrite F2, F5, F8, F11. tauto.
  - rewrite (Hz _ _ Habs Q3) in *. rewrite F3, F6, F9, F12. tauto.
  - rewrite (Hz _ _ Habs Q4) in *. rewrite F13. tauto.
  - rewrite (Hz _ _ Habs Q5) in *. rewrite F14. tauto.
  - rewrite (Hz _ _ Habs Q6) in *. rewrite F15. tauto.
Qed.

(** X12.  A numeric channel that is missing from the log shows up in every
    extracted session as an all-zero array, and its metrics are the neutral
    ones: final error 0 (not [None]), peak 0, overshoot 0, no oscillation,
    average speed 0. *)
Theorem missing_numeric_channel_is_zero (d : LogData) (start_idx end_idx : nat)
  (sess : AlignmentSession) :
  _extract_session d start_idx end_idx = Ok (Some sess) ->
  let n := length (timestamps sess) in
  let m := metrics sess in
  (forward_error d = None ->
   s_forward_error sess = repeat 0 n
   /\ final_forward_error m = Some 0 /\ max_forward_error m = 0
   /\ forward_overshoot m = 0 /\ forward_oscillations m = O)
  /\ (lateral_error d = None ->
      s_lateral_error sess = repeat 0 n
      /\ final_lateral_error m = Some 0 /\ max_lateral_error m = 0
      /\ lateral_overshoot m = 0 /\ lateral_oscillations m = O)
  /\ (rotation_error d = None ->
      s_rotation_error sess = repeat 0 n
      /\ final_rotation_error m = Some 0 /\ max_rotation_error m = 0
      /\ rotation_overshoot m = 0 /\ rotation_oscillations m = O)
  /\ (forward_speed d = None ->
      s_forward_speed sess = repeat 0 n /\ avg_forward_speed m == 0)
  /\ (lateral_speed d = None ->
      s_lateral_speed sess = repeat 0 n /\ avg_lateral_speed m == 0)
  /\ (rotation_speed d = None ->
      s_rotation_speed sess = repeat 0 n /\ avg_rotation_speed m == 0).
Proof. exact (session_zero_channels d start_idx end_idx sess). Qed.

Lemma missing_numeric_channel_is_zero_witness :
  exists sess,
    _extract_session example_log 1 3 = Ok (Some sess)
    /\ s_lateral_error sess = repeat 0 (length (timestamps sess))
    /\ final_lateral_error (metrics sess) = Some 0.
Proof.
  eexists. split; [vm_compute; reflexivity|].
  match goal with
  | |- s_lateral_error ?s = _ /\ _ =>
      destruct (proj1 (proj2 (missing_numeric_channel_is_zero
                                example_log 1 3 s
                                ltac:(vm_compute; reflexivity))) eq_refl)
        as [H1 [H2 _]]
  end.
  split; [exact H1 | exact H2].
Defined.

Lemma sorted_filter_fst {V} (f : Q * V -> bool) (c : channel V) :
  StronglySorted Qlt (timestamps_of c) ->
  StronglySorted Qlt (timestamps_of (filter f c)).
Proof.
  unfold timestamps_of. induction c as [|a r IH]; intros HS; [constructor|].
  cbn [map] in HS. apply StronglySorted_inv in HS as [HS F].
  cbn [filter]. destruct (f a); [|now apply IH].
  cbn [map]. constructor; [now apply IH|].
  rewrite Forall_forall in *. intros x Hx. apply F.
  apply in_map_iff in Hx as [y [<- Hy]]. apply filter_In in Hy as [Hy _].
  now apply in_map.
Qed.

(** X13.  When the forward-error channel has strictly increasing timestamps
    and at least one sample in the window of a session, the session's time
    base and forward-error array are exactly the samples of that channel
    inside the window: nothing is interpolated. *)
Theorem forward_error_passes_through (d : LogData) (start_idx end_idx : nat)
  (sess : AlignmentSession) (c : channel Q) :
  _extract_session d start_idx end_idx = Ok (Some sess) ->
  forward_error d = Some c ->
  StronglySorted Qlt (timestamps_of c) ->
  let kept := filter (fun smp => Qgeb (fst smp) (start_time sess)
                                 && Qle_bool (fst smp) (end_time sess)) c in
  kept <> [] ->
  timestamps sess = map (fun t => t - start_time sess) (timestamps_of kept)
  /\ s_forward_error sess = values_of kept.
Proof.
  intros E Hc HS kept Hne.
  destruct (session_inv _ _ _ _ E)
    as [st [t0 [t1 [ref [c1 [c2 [_ [_ [_ [_ [R [_ [_ [P Q]]]]]]]]]]]]]].
  destruct P as [T0 [T1 [_ [T _]]]]. destruct Q as [Q1 _].
  unfold kept in *. rewrite T0, T1 in *. clear kept.
  set (kept := filter _ c) in *.
  rewrite Hc in R, Q1. cbn [get_values_in_range fst snd] in R, Q1. fold kept in R, Q1.
  assert (Hts : timestamps_of kept <> []).
  { destruct kept; [congruence | discriminate]. }
  rewrite reference_cases in R. cbn [elems] in R.
  destruct (timestamps_of kept) as [|x r] eqn:Ek; [congruence|].
  injection R as <-. split; [exact T|].
  rewrite <- Ek in *.
  rewrite interp_own_knots in Q1.
  - now injection Q1.
  - exact Hts.
  - apply channel_lengths.
  - apply sorted_filter_fst. exact HS.
Qed.

Lemma forward_error_passes_through_witness :
  exists sess,
    _extract_session example_log 1 3 = Ok (Some sess)
    /\ s_forward_error sess = [1.0; 0.5; -0.3; 0.1].
Proof.
  eexists. split; [vm_compute; reflexivity|].
  match goal with
  | |- s_forward_error ?s = _ =>
      refine (proj2 (forward_error_passes_through example_log 1 3 s
                       example_forward_error _ eq_refl _ _))
  end.
  - vm_compute. reflexivity.
  - repeat constructor.
  - vm_compute. discriminate.
Defined.

(* ================================================================== *)
(** ** Further properties of the segmenter *)
(* ================================================================== *)

Lemma seg_run_in_bounds (rest : list string) :
  forall (seg : SegState) (i : nat),
    match seg with IDLE => True | IN_SESSION s => (s < i)%nat end ->
    Forall (fun r => (fst r < i + length rest)%nat
                     /\ (snd r < i + length rest)%nat)
           (seg_run seg i rest).
Proof.
  induction rest as [|x rest IH]; intros seg i Hseg.
  - destruct seg as [|s]; [constructor|].
    constructor; [simpl in *; lia | constructor].
  - assert (Hshift : forall seg',
               match seg' with IDLE => True | IN_SESSION s => (s < S i)%nat end ->
               Forall (fun r => (fst r < i + length (x :: rest))%nat
                                /\ (snd r < i + length (x :: rest))%nat)
                      (seg_run seg' (S i) rest)).
    { intros seg' H'. eapply Forall_impl; [|exact (IH seg' (S i) H')].
      cbn [length]. intros r Hr. lia. }
    destruct seg as [|s]; cbn [seg_run seg_step].
    + destruct (is_start x); apply Hshift; [lia | exact I].
    + destruct (is_end x).
      * constructor; [cbn [fst snd length]; lia|]. now apply Hshift.
      * apply Hshift. lia.
Qed.

Lemma seg_run_count (rest : list string) :
  forall (seg : SegState) (i : nat),
    (length (seg_run seg i rest)
     <= (match seg with IDLE => 0 | IN_SESSION _ => 1 end)
        + length (filter is_start rest))%nat.
Proof.
  induction rest as [|x rest IH]; intros seg i.
  - destruct seg; simpl; lia.
  - destruct seg as [|s]; cbn [seg_run seg_step filter].
    + destruct (is_start x); cbn [length].
      * specialize (IH (IN_SESSION i) (S i)). cbn iota in IH. lia.
      * exact (IH IDLE (S i)).
    + pose proof (IH IDLE (S i)) as I0. pose proof (IH (IN_SESSION s) (S i)) as I1.
      cbn iota in I0, I1.
      destruct (is_end x), (is_start x); cbn [length] in *; lia.
Qed.

Lemma extract_all_length (d : LogData) (ranges : list (nat * nat)) :
  forall acc l,
    extract_all d ranges acc = Ok l ->
    (length l <= length acc + length ranges)%nat.
Proof.
  induction ranges as [|[s e] rest IH]; intros acc l E.
  - injection E as <-. simpl. lia.
  - cbn [extract_all] in E.
    destruct (_extract_session d s e) as [session|err]; [|discriminate].
    cbn [bind] in E. apply IH in E. cbn [length].
    destruct session; cbn [append_session] in E;
      [rewrite length_app in E; simpl in E|]; lia.
Qed.

Lemma extract_total (d : LogData) (st : channel string) (s e : nat) :
  status d = Some st ->
  (s < length st)%nat -> (e < length st)%nat ->
  vision_has_target d <> None -> fully_aligned d <> None ->
  exists r, _extract_session d s e = Ok r.
Proof.
  intros Hs Ls Le Hv Ha.
  destruct (nth_error (timestamps_of st) s) as [t0|] eqn:N0.
  2:{ apply nth_error_None in N0. unfold timestamps_of in N0.
      rewrite length_map in N0. lia. }
  destruct (nth_error (timestamps_of st) e) as [t1|] eqn:N1.
  2:{ apply nth_error_None in N1. unfold timestamps_of in N1.
      rewrite length_map in N1. lia. }
  destruct (Qlt_le_dec (t1 - t0) 0.1) as [Hshort | Hlong].
  { eexists. exact (extract_short d _ _ st t0 t1 Hs N0 N1 Hshort). }
  destruct (reference_timestamps
              (fst (get_values_in_range t0 t1 (forward_error d)))
              (fst (get_values_in_range t0 t1 (rotation_error d))))
    as [ref|] eqn:R.
  2:{ eexists. exact (extract_no_reference d _ _ st t0 t1 Hs N0 N1 Hlong R). }
  destruct (vision_has_target d) as [c|] eqn:Ev; [|congruence].
  destruct (fully_aligned d) as [c'|] eqn:Ea; [|congruence].
  destruct (extract_kept d _ _ st t0 t1 Hs N0 N1 ref c c' Hlong R Ev Ea)
    as [sess [E _]].
  eexists. exact E.
Qed.

Lemma extract_all_total (d : LogData) (st : channel string)
  (ranges : list (nat * nat)) :
  status d = Some st ->
  vision_has_target d <> None -> fully_aligned d <> None ->
  Forall (fun r => (fst r < length st)%nat /\ (snd r < length st)%nat) ranges ->
  forall acc, exists l, extract_all d ranges acc = Ok l.
Proof.
  intros Hs Hv Ha F. induction F as [|[s e] rest [Bs Be] F IH]; intros acc.
  - eexists. reflexivity.
  - cbn [extract_all]. cbn [fst snd] in *.
    destruct (extract_total d st s e Hs Bs Be Hv Ha) as [r ->]. cbn [bind].
    apply IH.
Qed.

(** X14.  With both flag channels in the log, segmentation never raises,
    whatever the status channel and the other channels contain: it returns a
    list of sessions (the empty one when there is no status channel). *)
Theorem segmentation_total (d : LogData) :
  vision_has_target d <> None -> fully_aligned d <> None ->
  exists l, find_alignment_sessions d = Ok l.
Proof.
  intros Hv Ha. rewrite find_alignment_sessions_segments.
  destruct (status d) as [st|] eqn:Hs; [|eexists; reflexivity].
  apply (extract_all_total d st); trivial.
  pose proof (seg_run_in_bounds (values_of st) IDLE 0 I) as B.
  unfold values_of in B. rewrite length_map in B. exact B.
Qed.

Lemma segmentation_total_witness :
  exists l, find_alignment_sessions example_log = Ok l.
Proof.
  apply (segmentation_total example_log); discriminate.
Defined.

(** X15.  Every returned session was opened by its own start trigger: the
    number of sessions is at most the number of status samples that read
    STARTED or ALIGNING.  A status channel without any such sample yields no
    session and no error, even when other channels are missing. *)
Theorem sessions_need_start_triggers (d : LogData) (st : channel string) :
  status d = Some st ->
  (forall l, find_alignment_sessions d = Ok l ->
             (length l <= length (filter is_start (values_of st)))%nat)
  /\ (filter is_start (values_of st) = [] ->
      find_alignment_sessions d = Ok []).
Proof.
  intros Hs. rewrite find_alignment_sessions_segments, Hs.
  pose proof (seg_run_count (values_of st) IDLE 0) as C. fold (segments (values_of st)) in C.
  split.
  - intros l E. apply extract_all_length in E. simpl in *. lia.
  - intros Hnone. rewrite Hnone in C.
    destruct (segments (values_of st)); [reflexivity | simpl in C; lia].
Qed.

Lemma sessions_need_start_triggers_witness :
  find_alignment_sessions idle_log = Ok [].
Proof.
  exact (proj2 (sessions_need_start_triggers idle_log
                  [ (0, "IDLE"%string); (1, "COMPLETED"%string) ] eq_refl)
           eq_refl).
Defined.

(* ================================================================== *)
(** ** Field maps, loading and the summary *)
(* ================================================================== *)

(** X16.  The models A, B and C bind no forward-error channel (B and C load
    a distance error, which the analysis never reads): whatever the log
    contains, every session extracted under one of these models has an
    all-zero forward-error array, with final and peak forward error 0, no
    forward overshoot and no forward oscillation. *)
Theorem vision_models_have_no_forward_error (log : LogFile) (model : string)
  (start_idx end_idx : nat) (sess : AlignmentSession) :
  model = "A"%string \/ model = "B"%string \/ model = "C"%string ->
  _extract_session (load_log log model) start_idx end_idx = Ok (Some sess) ->
  forward_error (load_log log model) = None
  /\ s_forward_error sess = repeat 0 (length (timestamps sess))
  /\ final_forward_error (metrics sess) = Some 0
  /\ max_forward_error (metrics sess) = 0
  /\ forward_overshoot (metrics sess) = 0
  /\ forward_oscillations (metrics sess) = O.
Proof.
  intros Hm E.
  assert (Hnone : forward_error (load_log log model) = None)
    by (destruct Hm as [-> | [-> | ->]]; reflexivity).
  split; [exact Hnone|].
  exact (proj1 (session_zero_channels _ _ _ _ E) Hnone).
Qed.

Lemma vision_models_have_no_forward_error_witness :
  exists sess,
    _extract_session (load_log example_file_b "B") 1 3 = Ok (Some sess)
    /\ max_forward_error (metrics sess) = 0.
Proof.
  eexists. split; [vm_compute; reflexivity|].
  match goal with
  | |- max_forward_error (metrics ?s) = 0 =>
      destruct (vision_models_have_no_forward_error example_file_b "B" 1 3 s)
        as [_ [_ [_ [H _]]]]
  end.
  - right. left. reflexivity.
  - vm_compute. reflexivity.
  - exact H.
Defined.

Lemma inject_nat_le (a b : nat) :
  (a <= b)%nat -> inject_Z (Z.of_nat a) <= inject_Z (Z.of_nat b).
Proof. intros H. rewrite <- Zle_Qle. lia. Qed.

(** X17.  The summary is printed only for two sessions or more.  Then the
    success rate lies between 0 and 100, it is 100 exactly when every session
    succeeded, and a timing statistic is left out exactly when no value was
    collected for it. *)
Theorem summary_shape (sqrt : Q -> Q) (sessions : list AlignmentSession) :
  ((length sessions <= 1)%nat -> summary sqrt sessions = None)
  /\ ((1 < length sessions)%nat ->
      exists sm,
        summary sqrt sessions = Some sm
        /\ 0 <= success_rate sm <= 100
        /\ (success_rate sm == 100
            <-> forall s, In s sessions -> success (metrics s) = true)
        /\ (alignment_time_stats sm = None <-> alignment_times sessions = [])
        /\ (settling_time_stats sm = None <-> settling_times sessions = [])).
Proof.
  unfold summary. split; intros Hlen.
  - apply Nat.ltb_ge in Hlen. now rewrite Hlen.
  - pose proof Hlen as Hlt. apply Nat.ltb_lt in Hlen. rewrite Hlen.
    eexists. split; [reflexivity|]. cbn [success_rate alignment_time_stats
                                          settling_time_stats].
    set (ok := filter (fun s => success (metrics s)) sessions).
    set (k := inject_Z (Z.of_nat (length ok))).
    set (n := inject_Z (Z.of_nat (length sessions))).
    assert (Hn : 0 < n).
    { unfold n. change 0 with (inject_Z 0). rewrite <- Zlt_Qlt. lia. }
    assert (Hk0 : 0 <= k) by (apply (inject_nat_le 0); lia).
    assert (Hkn : k <= n) by (apply inject_nat_le, filter_length_le).
    assert (Hdiv0 : 0 <= k / n) by (apply Qle_shift_div_l; lra).
    assert (Hdiv1 : k / n <= 1) by (apply Qle_shift_div_r; lra).
    split; [split; lra|]. split; [|split].
    + split.
      * intros H100. assert (Hq : k == n).
        { assert (k / n == 1) by lra.
          setoid_replace k with (k / n * n) by (field; lra). rewrite H. lra. }
        unfold k, n in Hq. apply inject_Z_injective, Nat2Z.inj in Hq.
        apply filter_length_forallb in Hq. rewrite forallb_forall in Hq. exact Hq.
      * intros Hall. assert (Hq : ok = sessions).
        { unfold ok. clear -Hall. induction sessions as [|a r IH]; [reflexivity|].
          cbn [filter]. rewrite (Hall a (or_introl eq_refl)). f_equal.
          apply IH. intros s Hs. apply Hall. now right. }
        unfold k. rewrite Hq. fold n. field. lra.
    + unfold mean_std. destruct (alignment_times sessions); split;
        congruence.
    + unfold mean_std. destruct (settling_times sessions); split;
        congruence.
Qed.

Lemma summary_shape_witness :
  exists s1 s2 sm,
    find_alignment_sessions example_log = Ok [s1; s2]
    /\ summary (fun x => x) [s1; s2] = Some sm
    /\ 0 <= success_rate sm <= 100.
Proof.
  do 2 eexists.
  match goal with
  | |- exists sm, _ = Ok [?s1; ?s2] /\ _ =>
      destruct (proj2 (summary_shape (fun x => x) [s1; s2]))
        as [sm [E [B _]]]; [simpl; lia|]; exists sm
  end.
  split; [vm_compute; reflexivity|]. split; [exact E | exact B].
Defined.

(* ================================================================== *)
(** ** Flags of a session *)
(* ================================================================== *)

(** The aligned flags of a session are the thresholded resampling of the
    fully-aligned samples inside its window. *)
Lemma session_aligned_inv (d : LogData) (start_idx end_idx : nat)
  (sess : AlignmentSession) :
  _extract_session d start_idx end_idx = Ok (Some sess) ->
  exists ref c' l,
    ref <> []
    /\ timestamps sess = map (fun t => t - start_time sess) ref
    /\ fully_aligned d = Some c'
    /\ interp_to_common
         (fst (get_values_in_range (start_time sess) (end_time sess) (Some c')))
         (NdArray (map (fun b : bool => if b then 1 else 0)
                       (elems (snd (get_values_in_range
                                      (start_time sess) (end_time sess) (Some c'))))))
         ref = Ok l
    /\ aligned_flags sess = threshold l
    /\ _calculate_metrics (timestamps sess)
         (s_forward_error sess) (s_lateral_error sess) (s_rotation_error sess)
         (s_forward_speed sess) (s_lateral_speed sess) (s_rotation_speed sess)
         (has_target sess) (aligned_flags sess)
       = Ok (metrics sess).
Proof.
  intros E.
  destruct (extract_some_status _ _ _ _ E) as [st [t0 [t1 [Hs [N0 N1]]]]].
  destruct (extract_some_path d _ _ st t0 t1 Hs N0 N1 sess E)
    as [ref [c [c' [Hd [R [Hv Ha]]]]]].
  destruct (extract_kept d _ _ st t0 t1 Hs N0 N1 ref c c' Hd R Hv Ha)
    as [s1 [E1 P1]].
  destruct (extract_kept_arrays d _ _ st t0 t1 Hs N0 N1 ref c c' Hd R Hv Ha)
    as [s2 [E2 P2]].
  rewrite E in E1, E2. injection E1 as <-. injection E2 as <-.
  destruct P1 as [T0 [T1 [_ [T [_ [_ [_ [_ [_ [_ [_ [_ M]]]]]]]]]]]].
  destruct P2 as [_ [_ [_ [_ [_ [_ [_ [a [l [A [I F]]]]]]]]]]].
  exists ref, c', l. rewrite T0, T1.
  split; [exact (reference_nonempty _ _ _ R)|].
  split; [exact T|]. split; [exact Ha|].
  cbn [get_values_in_range snd elems] in A |- *. injection A as <-.
  split; [exact I|]. split; [exact F | exact M].
Qed.

Lemma threshold_zeros (t : list Q) :
  threshold (Np.zeros_like t) = repeat false (length t).
Proof.
  unfold threshold, Np.zeros_like. rewrite map_map.
  induction t as [|a r IH]; simpl; [trivial | now rewrite IH].
Qed.

Lemma any_repeat_false (n : nat) : Np.any (repeat false n) = false.
Proof. induction n as [|n IH]; simpl; [trivial | exact IH]. Qed.

(** X18.  A session in whose window the fully-aligned channel has no sample
    has all aligned flags false: it is not a success and has no alignment
    time. *)
Theorem no_aligned_sample_no_success (d : LogData) (start_idx end_idx : nat)
  (sess : AlignmentSession) (c' : channel bool) :
  _extract_session d start_idx end_idx = Ok (Some sess) ->
  fully_aligned d = Some c' ->
  filter (fun smp => Qgeb (fst smp) (start_time sess)
                     && Qle_bool (fst smp) (end_time sess)) c' = [] ->
  aligned_flags sess = repeat false (length (timestamps sess))
  /\ success (metrics sess) = false
  /\ alignment_time (metrics sess) = None.
Proof.
  intros E Ha Hempty.
  destruct (session_aligned_inv _ _ _ _ E)
    as [ref [c2 [l [_ [T [Ha' [I [F M]]]]]]]].
  rewrite Ha in Ha'. injection Ha' as <-.
  cbn [get_values_in_range fst snd elems] in I. rewrite Hempty in I.
  cbn in I. injection I as <-. fold (Np.zeros_like ref) in F.
  rewrite threshold_zeros in F.
  assert (Hflags : aligned_flags sess = repeat false (length (timestamps sess))).
  { now rewrite F, T, length_map. }
  split; [exact Hflags|].
  destruct (alignment_time_core _ _ _ _ _ _ _ _ _ _ M) as [S1 [S2 _]].
  assert (Hs : success (metrics sess) = false).
  { apply not_true_is_false. intros C. apply S1 in C as [i Hi].
    rewrite F in Hi. clear -Hi. revert i Hi.
    induction (length ref) as [|n IH]; intros [|i] Hi; simpl in Hi;
      try discriminate. exact (IH i Hi). }
  split; [exact Hs | now apply S2].
Qed.

Lemma no_aligned_sample_no_success_witness :
  exists sess,
    _extract_session sparse_forward_log 0 1 = Ok (Some sess)
    /\ success (metrics sess) = false.
Proof.
  eexists. split; [vm_compute; reflexivity|].
  match goal with
  | |- success (metrics ?s) = false =>
      destruct (no_aligned_sample_no_success sparse_forward_log 0 1 s [])
        as [_ [H _]]
  end.
  - vm_compute. reflexivity.
  - reflexivity.
  - reflexivity.
  - exact H.
Defined.

(** X19.  A session in whose window the fully-aligned channel has samples
    and all of them are true is aligned from its first timestamp on: every
    aligned flag is true, the session is a success and its alignment time is
    its first timestamp. *)
Theorem always_aligned_session (d : LogData) (start_idx end_idx : nat)
  (sess : AlignmentSession) (c' : channel bool) :
  _extract_session d start_idx end_idx = Ok (Some sess) ->
  fully_aligned d = Some c' ->
  let kept := filter (fun smp => Qgeb (fst smp) (start_time sess)
                                 && Qle_bool (fst smp) (end_time sess)) c' in
  kept <> [] ->
  (forall smp, In smp kept -> snd smp = true) ->
  aligned_flags sess = repeat true (length (timestamps sess))
  /\ success (metrics sess) = true
  /\ alignment_time (metrics sess) = Some (nth 0 (timestamps sess) 0).
Proof.
  intros E Ha kept Hne Htrue.
  destruct (session_aligned_inv _ _ _ _ E)
    as [ref [c2 [l [Href [T [Ha' [I [F M]]]]]]]].
  rewrite Ha in Ha'. injection Ha' as <-.
  cbn [get_values_in_range fst snd elems] in I. fold kept in I.
  set (fp := map (fun b : bool => if b then 1 else 0) (values_of kept)) in I.
  assert (Hl : length fp = length (timestamps_of kept)).
  { unfold fp. rewrite length_map. apply channel_lengths. }
  assert (Hxp : timestamps_of kept <> []) by (destruct kept; [congruence | discriminate]).
  assert (Hfp : forall v, In v fp -> 1 <= v <= 1).
  { intros v Hv. unfold fp, values_of in Hv. rewrite map_map in Hv.
    apply in_map_iff in Hv as [smp [<- Hin]]. rewrite (Htrue smp Hin). lra. }
  assert (Hlv : forall v, In v l -> Qgtb v 0.5 = true).
  { intros v Hv. unfold interp_to_common, len, elems in I. rewrite Hl, orb_diag in I.
    assert (En : Nat.eqb (length (timestamps_of kept)) 0 = false).
    { apply Nat.eqb_neq. destruct (timestamps_of kept); simpl; congruence. }
    rewrite En in I. unfold Np.interp in I.
    rewrite En, Hl, Nat.eqb_refl in I. cbn [negb] in I. injection I as <-.
    apply in_map_iff in Hv as [x [<- _]].
    pose proof (interp_at_bounded (timestamps_of kept) fp 1 1 x Hxp Hl Hfp).
    apply Qgtb_gt. lra. }
  assert (Hlen : length l = length ref).
  { destruct (interp_to_common_ok (NdArray (timestamps_of kept)) (NdArray fp) ref)
      as [l2 [I2 L2]]; [unfold len, elems; now rewrite Hl|].
    rewrite I in I2. now injection I2 as <-. }
  assert (Hflags : aligned_flags sess = repeat true (length (timestamps sess))).
  { rewrite F, T, length_map, <- Hlen. unfold threshold. clear -Hlv.
    induction l as [|v r IH]; [reflexivity|]. cbn [map length repeat].
    rewrite (Hlv v (or_introl eq_refl)). f_equal.
    apply IH. intros x Hx. apply Hlv. now right. }
  split; [exact Hflags|].
  assert (Hpos : (0 < length (timestamps sess))%nat).
  { rewrite T, length_map. destruct ref; simpl; [congruence | lia]. }
  assert (H0 : nth 0 (aligned_flags sess) false = true).
  { rewrite Hflags. destruct (length (timestamps sess)); [lia | reflexivity]. }
  destruct (alignment_time_core _ _ _ _ _ _ _ _ _ _ M) as [S1 [S2 S3]].
  assert (Hs : success (metrics sess) = true) by (apply S1; now exists O).
  split; [exact Hs|].
  destruct (alignment_time (metrics sess)) as [t|] eqn:At.
  - destruct (S3 t eq_refl) as [i [Ni [_ Hmin]]].
    destruct i as [|i]; [|specialize (Hmin O ltac:(lia)); congruence].
    f_equal. destruct (timestamps sess); [discriminate|].
    simpl in Ni. now injection Ni.
  - pose proof (proj1 S2 eq_refl). congruence.
Qed.

Lemma always_aligned_session_witness :
  exists sess,
    _extract_session example_log 5 6 = Ok (Some sess)
    /\ alignment_time (metrics sess) = Some (nth 0 (timestamps sess) 0).
Proof.
  eexists. split; [vm_compute; reflexivity|].
  match goal with
  | |- alignment_time (metrics ?s) = _ =>
      refine (proj2 (proj2 (always_aligned_session example_log 5 6 s
                              example_flag _ eq_refl _ _)))
  end.
  - vm_compute. reflexivity.
  - vm_compute. discriminate.
  - vm_compute. intros smp [<- | []]. reflexivity.
Defined.

(** X20.  The settling time is the timestamp of the first sample that is
    within tolerance, has some sample at least the settle duration later,
    and has only samples within tolerance that late; it is [None] exactly
    when no sample is like that. *)
Theorem settling_time_first_late_settled (ts fe le re : list Q)
  (ftol ltol rtol sd : Q) :
  let within_tol := within_tolerance fe le re ftol ltol rtol in
  length within_tol = length ts ->
  match _calculate_settling_time ts fe le re ftol ltol rtol sd with
  | Some t =>
      exists i, (i < length ts)%nat /\ t = nth i ts 0
                /\ late_settled ts within_tol sd i
                /\ forall j, (j < i)%nat -> ~ late_settled ts within_tol sd j
  | None => forall j, (j < length ts)%nat -> ~ late_settled ts within_tol sd j
  end.
Proof. exact (calculate_settling_time_spec ts fe le re ftol ltol rtol sd). Qed.

Lemma settling_time_first_late_settled_witness :
  match _calculate_settling_time [0; 0.5; 1; 1.5; 2] [1; 0; 0; 0; 0]
          [0; 0; 0; 0; 0] [0; 0; 0; 0; 0] 0.10 0.05 2.0 0.5 with
  | Some t =>
      exists i, (i < 5)%nat /\ t = nth i [0; 0.5; 1; 1.5; 2] 0
                /\ late_settled [0; 0.5; 1; 1.5; 2]
                     (within_tolerance [1; 0; 0; 0; 0] [0; 0; 0; 0; 0]
                        [0; 0; 0; 0; 0] 0.10 0.05 2.0) 0.5 i
                /\ forall j, (j < i)%nat ->
                     ~ late_settled [0; 0.5; 1; 1.5; 2]
                         (within_tolerance [1; 0; 0; 0; 0] [0; 0; 0; 0; 0]
                            [0; 0; 0; 0; 0] 0.10 0.05 2.0) 0.5 j
  | None =>
      forall j, (j < 5)%nat ->
        ~ late_settled [0; 0.5; 1; 1.5; 2]
            (within_tolerance [1; 0; 0; 0; 0] [0; 0; 0; 0; 0]
               [0; 0; 0; 0; 0] 0.10 0.05 2.0) 0.5 j
  end.
Proof.
  apply (settling_time_first_late_settled [0; 0.5; 1; 1.5; 2] [1; 0; 0; 0; 0]
           [0; 0; 0; 0; 0] [0; 0; 0; 0; 0] 0.10 0.05 2.0 0.5).
  reflexivity.
Defined.
